(** * idnt: the object browser's graph walker, persistence codec and
      settings merge, embedded from [layout_editor.py] and
      [settings_window.py].

    Python values are modelled the way the interpreter has them: immediate
    scalars, and references into a heap for containers and instances, so
    that a value may contain a reference to itself.  Everything the
    program obtains from the Python runtime or its libraries (reflection,
    [str]/[repr], pickle, json, UTF-8 codecs) is a parameter of the
    development; the program's own control flow is written out. *)

From Stdlib Require Import ZArith Lia List String Ascii.
From Stdlib.Strings Require Import Byte.
From stdpp Require Import base option list gmap strings pretty.

Local Open Scope Z_scope.
Local Open Scope nat_scope.

(** ** Exceptions and results *)

Module Py.

(** The exception classes the program names in its [except] clauses, and
    the ones its library calls raise. *)
Inductive ExnClass : Type :=
  | PicklingError | UnpicklingError
  | TypeError | ValueError | AttributeError
  | UnicodeEncodeError | UnicodeDecodeError | JSONDecodeError
  | EOFError | ImportError | ModuleNotFoundError
  | MemoryError | OSError | FileNotFoundError | PermissionError
  | RuntimeError | RecursionError | KeyError
  | OtherError (name : string).

#[global] Instance ExnClass_eq_dec : EqDecision ExnClass.
Proof. solve_decision. Defined.

(** [type(e).__name__] *)
Definition exn_name (c : ExnClass) : string :=
  match c with
  | PicklingError => "PicklingError" | UnpicklingError => "UnpicklingError"
  | TypeError => "TypeError" | ValueError => "ValueError"
  | AttributeError => "AttributeError"
  | UnicodeEncodeError => "UnicodeEncodeError"
  | UnicodeDecodeError => "UnicodeDecodeError"
  | JSONDecodeError => "JSONDecodeError"
  | EOFError => "EOFError" | ImportError => "ImportError"
  | ModuleNotFoundError => "ModuleNotFoundError"
  | MemoryError => "MemoryError" | OSError => "OSError"
  | FileNotFoundError => "FileNotFoundError"
  | PermissionError => "PermissionError"
  | RuntimeError => "RuntimeError" | RecursionError => "RecursionError"
  | KeyError => "KeyError"
  | OtherError name => name
  end.

(** The class itself followed by its base classes below [Exception]. *)
Definition exn_mro (c : ExnClass) : list ExnClass :=
  match c with
  | UnicodeEncodeError => [UnicodeEncodeError; ValueError]
  | UnicodeDecodeError => [UnicodeDecodeError; ValueError]
  | JSONDecodeError => [JSONDecodeError; ValueError]
  | ModuleNotFoundError => [ModuleNotFoundError; ImportError]
  | FileNotFoundError => [FileNotFoundError; OSError]
  | PermissionError => [PermissionError; OSError]
  | RecursionError => [RecursionError; RuntimeError]
  | _ => [c]
  end.

Record Exn : Type := mkExn { exn_class : ExnClass; exn_msg : string }.

(** [except (c1, c2, ...)] catches [e]. *)
Definition caught_by (handlers : list ExnClass) (e : Exn) : bool :=
  existsb (fun h => bool_decide (h ∈ exn_mro (exn_class e))) handlers.

Inductive Result (A : Type) : Type :=
  | Ok (a : A)
  | Raise (e : Exn).
Arguments Ok {A} a.
Arguments Raise {A} e.

#[global] Instance Result_ret : MRet Result := fun A a => Ok a.
#[global] Instance Result_bind : MBind Result := fun A B f r =>
  match r with
  | Ok a => f a
  | Raise e => Raise e
  end.

Definition raise {A : Type} (c : ExnClass) : Result A := Raise (mkExn c "").

(** The exception classes outside [Exception].  No [except Exception]
    clause and no clause naming a class above catches them. *)
Inductive BaseExn : Type := SystemExit | KeyboardInterrupt | GeneratorExit.

(** What a call that runs code named by its input can do: return, raise
    an exception derived from [Exception], or raise one that is not.
    Unpickling is such a call: a pickle names the callables that rebuild
    the object, and the unpickler calls them. *)
Inductive Outcome (A : Type) : Type :=
  | Returns (a : A)
  | Raises (e : Exn)
  | Exits (b : BaseExn).
Arguments Returns {A} a.
Arguments Raises {A} e.
Arguments Exits {A} b.

(** ** Values *)

Definition loc := nat.

(** Scalars are immediate; dicts, lists, tuples and instances are
    references.  A float is kept as its IEEE-754 bit pattern and never
    computed with. *)
Inductive Val : Type :=
  | VNone
  | VBool (b : bool)
  | VInt (z : Z)
  | VFloat (bits : Z)
  | VStr (s : string)
  | VBytes (bs : list byte)
  | VObj (l : loc).

Record ClassInfo : Type := mkClass {
  cls_name : string;      (* type(o).__name__ *)
  cls_callable : bool;    (* callable(o) *)
  cls_widget : bool;      (* isinstance(o, (tk.Widget, ttk.Widget)) *)
  cls_window : bool       (* isinstance(o, (tk.Tk, tk.Toplevel)) *)
}.

(** What a reference points to.  An instance carries its [__dict__] when
    it has one ([vars(o)]). *)
Inductive Shape : Type :=
  | SDict (entries : list (Val * Val))
  | SList (items : list Val)
  | STuple (items : list Val)
  | SInst (cls : ClassInfo) (inst_dict : option (list (string * Val))).

End Py.
Export Py.

(** ** The tree the walker builds

    [object_tree.insert(parent_id, "end", text=..., values=(type, path, "", ""))]
    appends one item under [parent_id].  The items appended under one
    parent, in insertion order, each with the items appended under it, are
    a forest of [Node]s.  [underlying] is the value the item's path
    denotes at enumeration time; the tree view does not store it, the
    path does ([eval(obj_path)] in [on_object_selected]). *)
#[warnings="-register-all"]
Inductive Node : Type := mkNode {
  text : string;
  vtype : string;
  path : string;
  underlying : Val;
  children : list Node
}.

Fixpoint node_levels (d : nat) (n : Node) : list (nat * Node) :=
  (d, n) :: flat_map (node_levels (S d)) (children n).

(** Every node of a forest with its depth, the forest's roots at [d]. *)
Definition forest_levels (d : nat) (f : list Node) : list (nat * Node) :=
  flat_map (node_levels d) f.

Definition forest_nodes (f : list Node) : list Node :=
  (forest_levels 0 f).*2.

(** ** The walker: [ObjectBrowser._enumerate_object] *)

Section Walker.

(** The interpreter's heap and reflection primitives. *)
Variable heap : loc -> Shape.
Variable py_str : Val -> Result string.                 (* str(o) *)
Variable py_repr : Val -> Result string.                (* repr(o) *)
Variable py_dir : Val -> Result (list string).          (* dir(o) *)
Variable py_getattr : Val -> string -> Result Val.      (* getattr(o, name) *)

(** [type(o).__name__] *)
Definition type_name (v : Val) : string :=
  match v with
  | VNone => "NoneType" | VBool _ => "bool" | VInt _ => "int"
  | VFloat _ => "float" | VStr _ => "str" | VBytes _ => "bytes"
  | VObj l =>
      match heap l with
      | SDict _ => "dict" | SList _ => "list" | STuple _ => "tuple"
      | SInst c _ => cls_name c
      end
  end.

(** [isinstance(v, (str, int, float, bool))] *)
Definition is_simple (v : Val) : bool :=
  match v with
  | VStr _ | VInt _ | VFloat _ | VBool _ => true
  | _ => false
  end.

(** [isinstance(v, (str, int, float, bool, type(None)))] *)
Definition is_simple_or_none (v : Val) : bool :=
  match v with
  | VNone => true
  | _ => is_simple v
  end.

(** [isinstance(v, dict)] *)
Definition is_dict (v : Val) : bool :=
  match v with
  | VObj l => match heap l with SDict _ => true | _ => false end
  | _ => false
  end.

(** [isinstance(v, (list, tuple))] *)
Definition is_list_or_tuple (v : Val) : bool :=
  match v with
  | VObj l => match heap l with SList _ | STuple _ => true | _ => false end
  | _ => false
  end.

(** [callable(v)] *)
Definition callable (v : Val) : bool :=
  match v with
  | VObj l => match heap l with SInst c _ => cls_callable c | _ => false end
  | _ => false
  end.

(** [hasattr(v, '__dict__')] *)
Definition has_dict (v : Val) : bool :=
  match v with
  | VObj l => match heap l with SInst _ (Some _) => true | _ => false end
  | _ => false
  end.

(** [obj.items()] of a dict *)
Definition dict_items (v : Val) : list (Val * Val) :=
  match v with
  | VObj l => match heap l with SDict es => es | _ => [] end
  | _ => []
  end.

(** the elements of a list or tuple *)
Definition seq_items (v : Val) : list Val :=
  match v with
  | VObj l => match heap l with SList xs | STuple xs => xs | _ => [] end
  | _ => []
  end.

(** [attr_name.startswith('_')] *)
Definition starts_with_underscore (s : string) : bool :=
  match s with
  | String c _ => bool_decide (c = "_"%char)
  | EmptyString => false
  end.

(** The value preview of the two container branches:
    [try: if isinstance(...): node_text += f" = {repr(value)[:50]}"
     except: pass]. *)
Definition preview_suffix (v : Val) : string :=
  if is_simple v then
    match py_repr v with
    | Ok r => " = " +:+ substring 0 50 r
    | Raise _ => ""
    end
  else "".

(** The loops take the recursive call as [rec]; it answers [None] when
    the recursion budget is used up. *)
Section Loops.
Variable rec : Val -> string -> option (list Node).

(** [for key, value in obj.items(): ...].  [str(key)] or [repr(key)]
    raising leaves the loop through the outer [except: pass]; what
    was inserted before stays. *)
Fixpoint enum_dict (obj_name : string) (items : list (Val * Val))
    : option (list Node) :=
  match items with
  | [] => Some []
  | (key, value) :: rest =>
      match py_str key, py_repr key with
      | Ok key_str, Ok key_repr =>
          let val_type := type_name value in
          let node_text :=
            "🔑 " +:+ key_str +:+ ": " +:+ val_type +:+ preview_suffix value in
          let child_path := obj_name +:+ "[" +:+ key_repr +:+ "]" in
          kids ← (if negb (is_simple_or_none value)
                  then rec value child_path else Some []);
          more ← enum_dict obj_name rest;
          Some (mkNode node_text val_type child_path value kids :: more)
      | _, _ => Some []
      end
  end.

(** [for idx, value in enumerate(obj): ...] *)
Fixpoint enum_seq (obj_name : string) (idx : nat) (items : list Val)
    : option (list Node) :=
  match items with
  | [] => Some []
  | value :: rest =>
      let val_type := type_name value in
      let node_text :=
        "[" +:+ pretty idx +:+ "]: " +:+ val_type +:+ preview_suffix value in
      let child_path := obj_name +:+ "[" +:+ pretty idx +:+ "]" in
      kids ← (if negb (is_simple_or_none value)
              then rec value child_path else Some []);
      more ← enum_seq obj_name (S idx) rest;
      Some (mkNode node_text val_type child_path value kids :: more)
  end.

(** The icon of the attribute branch. *)
Definition attr_prefix (attr_value : Val) : string :=
  if callable attr_value then "⚙️"
  else if is_simple attr_value then "📊"
  else if is_dict attr_value then "📁"
  else if is_list_or_tuple attr_value then "📋"
  else "●".

(** The body of the inner [try] for one attribute: [None] of the
    outer option is the budget, [Raise] is the attribute skipped by
    [except: pass]. *)
Definition enum_attr (obj : Val) (obj_name attr_name : string)
    : option (Result Node) :=
  match py_getattr obj attr_name with
  | Raise e => Some (Raise e)
  | Ok attr_value =>
      let attr_type := type_name attr_value in
      let node_text := attr_prefix attr_value +:+ " " +:+ attr_name +:+ ": " +:+ attr_type in
      let with_preview :=
        if is_simple attr_value then
          match py_repr attr_value with
          | Ok r => Ok (node_text +:+ " = " +:+ substring 0 50 r)
          | Raise e => Raise e
          end
        else Ok node_text in
      match with_preview with
      | Raise e => Some (Raise e)
      | Ok node_text =>
          let child_path := obj_name +:+ "." +:+ attr_name in
          kids ← (if negb (is_simple_or_none attr_value) && negb (callable attr_value)
                  then
                    if is_dict attr_value || is_list_or_tuple attr_value
                       || has_dict attr_value
                    then rec attr_value child_path
                    else Some []
                  else Some []);
          Some (Ok (mkNode node_text attr_type child_path attr_value kids))
      end
  end.

(** [for attr_name in dir(obj): ...] *)
Fixpoint enum_attrs (obj : Val) (obj_name : string) (depth : nat)
    (names : list string) : option (list Node) :=
  match names with
  | [] => Some []
  | attr_name :: rest =>
      if bool_decide (0 < depth) && starts_with_underscore attr_name
      then enum_attrs obj obj_name depth rest
      else
        r ← enum_attr obj obj_name attr_name;
        more ← enum_attrs obj obj_name depth rest;
        Some (match r with Ok n => n :: more | Raise _ => more end)
  end.
End Loops.

(** [_enumerate_object(obj, parent_id, obj_name, depth, max_depth)]: the
    forest inserted under [parent_id].  [fuel] bounds the nesting of
    recursive calls; [None] means the bound was hit. *)
Fixpoint _enumerate_object (fuel : nat) (obj : Val) (obj_name : string)
    (depth max_depth : nat) : option (list Node) :=
  if bool_decide (max_depth <= depth) then Some []
  else
    match fuel with
    | 0 => None
    | S fuel' =>
        let rec := fun v p => _enumerate_object fuel' v p (depth + 1) max_depth in
        if is_dict obj then enum_dict rec obj_name (dict_items obj)
        else if is_list_or_tuple obj then enum_seq rec obj_name 0 (seq_items obj)
        else
          match py_dir obj with
          | Ok names => enum_attrs rec obj obj_name depth names
          | Raise _ => Some []
          end
    end.

End Walker.


(** All depths recorded in a level listing lie below [m]. *)
Definition levels_below (m : nat) (l : list (nat * Node)) : Prop :=
  Forall (fun dn => dn.1 < m) l.

(** A recursive call that always answers, with a forest below the bound. *)
Definition rec_ok (rec : Val -> string -> option (list Node)) (d m : nat) : Prop :=
  forall v p, exists f, rec v p = Some f /\ levels_below m (forest_levels d f).


(** ** Settings documents: [SettingsWindow.load_settings]

    A settings document is what [json.load] returns: a tree (no sharing,
    no cycles) of dicts keyed by strings, lists and scalars.  A dict keeps
    its keys in insertion order. *)

Module Settings.

#[warnings="-register-all"]
Inductive JVal : Type :=
  | JNull
  | JBool (b : bool)
  | JInt (z : Z)
  | JFloat (lexeme : string)
  | JStr (s : string)
  | JList (xs : list JVal)
  | JObj (kvs : list (string * JVal)).

(** [d[key]] on the entries of a dict *)
Fixpoint assoc (kvs : list (string * JVal)) (key : string) : option JVal :=
  match kvs with
  | [] => None
  | (k, v) :: rest => if String.eqb k key then Some v else assoc rest key
  end.

(** [d[key] = v] on the entries of a dict: an existing key keeps its
    place, a new key goes last. *)
Fixpoint assoc_set (kvs : list (string * JVal)) (key : string) (v : JVal)
    : list (string * JVal) :=
  match kvs with
  | [] => [(key, v)]
  | (k, v0) :: rest =>
      if String.eqb k key then (k, v) :: rest
      else (k, v0) :: assoc_set rest key v
  end.

(** [sub in s] on strings *)
Fixpoint substring_of (sub s : string) : bool :=
  String.prefix sub s ||
  match s with
  | String _ s' => substring_of sub s'
  | EmptyString => false
  end.

(** [key in container], for a string [key] *)
Definition py_in (key : string) (container : JVal) : Result bool :=
  match container with
  | JObj kvs => Ok (bool_decide (is_Some (assoc kvs key)))
  | JList xs =>
      Ok (existsb (fun x => match x with JStr s => String.eqb s key | _ => false end) xs)
  | JStr s => Ok (substring_of key s)
  | _ => raise TypeError
  end.

(** [container[key]], for a string [key] *)
Definition py_getitem (container : JVal) (key : string) : Result JVal :=
  match container with
  | JObj kvs =>
      match assoc kvs key with
      | Some v => Ok v
      | None => raise KeyError
      end
  | _ => raise TypeError
  end.

(** [container[key] = v], for a string [key] *)
Definition py_setitem (container : JVal) (key : string) (v : JVal) : Result JVal :=
  match container with
  | JObj kvs => Ok (JObj (assoc_set kvs key v))
  | _ => raise TypeError
  end.

Definition default_settings : list (string * list (string * JVal)) :=
  [ ("browser",
      [ ("max_depth", JInt 6); ("show_private", JBool false);
        ("show_magic", JBool true); ("expand_on_select", JBool true);
        ("auto_refresh", JBool false); ("search_case_sensitive", JBool false) ]);
    ("display",
      [ ("theme", JStr "default"); ("font_family", JStr "Courier");
        ("font_size", JInt 10); ("tree_font_size", JInt 9);
        ("window_width", JInt 1400); ("window_height", JInt 900);
        ("status_bar_visible", JBool true); ("line_numbers", JBool false) ]);
    ("editor",
      [ ("editor_command", JStr "notepad {filename}");
        ("syntax_highlighting", JBool true); ("word_wrap", JBool false);
        ("tab_size", JInt 4); ("auto_indent", JBool true) ]);
    ("persistence",
      [ ("auto_save_loaded_objects", JBool false);
        ("loaded_objects_file", JStr "loaded_objects.pkl");
        ("remember_window_position", JBool true);
        ("max_recent_files", JInt 10); ("pickle_protocol", JInt 4) ]);
    ("advanced",
      [ ("debug_mode", JBool false); ("log_file", JStr "object_browser.log");
        ("enable_logging", JBool false); ("performance_mode", JBool false);
        ("large_file_warning_mb", JInt 100); ("memory_limit_mb", JInt 500) ]);
    ("colors",
      [ ("background", JStr "white"); ("foreground", JStr "black");
        ("keyword_color", JStr "blue"); ("string_color", JStr "green");
        ("comment_color", JStr "gray"); ("function_color", JStr "purple");
        ("selection_bg", JStr "lightblue"); ("error_color", JStr "red") ]) ].

(** The default document as a value. *)
Definition default_document : JVal :=
  JObj (map (fun cv => (cv.1, JObj cv.2)) default_settings).

(** [for key, default_val in values.items():
       if key not in loaded[category]: loaded[category][key] = default_val] *)
Fixpoint merge_keys (loaded : JVal) (category : string)
    (values : list (string * JVal)) : Result JVal :=
  match values with
  | [] => Ok loaded
  | (key, default_val) :: rest =>
      inner ← py_getitem loaded category;
      present ← py_in key inner;
      loaded' ← (if negb present
                 then inner' ← py_setitem inner key default_val;
                      py_setitem loaded category inner'
                 else Ok loaded);
      merge_keys loaded' category rest
  end.

(** [for category, values in default_settings.items(): ...] *)
Fixpoint merge_defaults (loaded : JVal)
    (defaults : list (string * list (string * JVal))) : Result JVal :=
  match defaults with
  | [] => Ok loaded
  | (category, values) :: rest =>
      present ← py_in category loaded;
      loaded' ← (if negb present
                 then py_setitem loaded category (JObj values)
                 else merge_keys loaded category values);
      merge_defaults loaded' rest
  end.

(** [load_settings]: [file] is [None] when [settings.json] does not
    exist, otherwise what [open] and [json.load] give.  The result is the
    effective document and whether the "Settings Error" box was shown. *)
Definition load_settings (file : option (Result JVal)) : JVal * bool :=
  match file with
  | None => (default_document, false)
  | Some parsed =>
      match parsed ≫= (fun loaded => merge_defaults loaded default_settings) with
      | Ok effective => (effective, false)
      | Raise _ => (default_document, true)
      end
  end.

(** [doc[category][key]], when both exist *)
Definition lookup2 (doc : JVal) (category key : string) : option JVal :=
  match doc with
  | JObj cats =>
      match assoc cats category with
      | Some (JObj kvs) => assoc kvs key
      | _ => None
      end
  | _ => None
  end.

(** [doc[category]], when it exists *)
Definition lookup1 (doc : JVal) (category : string) : option JVal :=
  match doc with
  | JObj cats => assoc cats category
  | _ => None
  end.

(** A document of the shape the settings editor reads and writes: a dict
    whose entries for the default categories, where present, are dicts. *)
Definition well_formed (doc : JVal) : bool :=
  match doc with
  | JObj cats =>
      forallb (fun cv : string * list (string * JVal) =>
                 match assoc cats cv.1 with
                 | Some (JObj _) | None => true
                 | Some _ => false
                 end) default_settings
  | _ => false
  end.

(** A persisted document without the category [colors], with one custom
    value and one category the defaults do not know. *)
Definition custom_document : JVal :=
  JObj [ ("browser", JObj [("max_depth", JInt 9)]);
         ("plugins", JObj [("enabled", JBool true)]) ].

(** The first default for [(category, key)] that the merge loop meets. *)
Fixpoint first_default (defaults : list (string * list (string * JVal)))
    (category key : string) : option JVal :=
  match defaults with
  | [] => None
  | (c, values) :: rest =>
      match (if String.eqb c category then assoc values key else None) with
      | Some v => Some v
      | None => first_default rest category key
      end
  end.

Definition or_else (a b : option JVal) : option JVal :=
  match a with Some v => Some v | None => b end.

(** A category entry the merge can work on: absent, or a dict. *)
Definition cat_ok (cats : list (string * JVal)) (category : string) : Prop :=
  match assoc cats category with
  | Some (JObj _) | None => True
  | Some _ => False
  end.

End Settings.

(** ** The world around the browser: files and dialogs *)

(** The files the process can see, by path, and the paths the operating
    system refuses to read or to open for writing. *)
Record FS : Type := mkFS {
  files : gmap string (list byte);
  unreadable : gset string;
  unwritable : gset string
}.

(** [os.path.exists(f)] *)
Definition path_exists (fs : FS) (f : string) : bool :=
  bool_decide (is_Some (files fs !! f)).

(** [os.access(f, os.R_OK)] *)
Definition access_read (fs : FS) (f : string) : bool :=
  bool_decide (f ∉ unreadable fs).

(** [os.path.getsize(f)] *)
Definition getsize (fs : FS) (f : string) : Z :=
  Z.of_nat (length (default [] (files fs !! f))).

(** [with open(f, 'rb') as h: h.read()] *)
Definition read_file (fs : FS) (f : string) : Result (list byte) :=
  match files fs !! f with
  | None => raise FileNotFoundError
  | Some data =>
      if bool_decide (f ∈ unreadable fs) then raise PermissionError else Ok data
  end.

(** [with open(f, 'wb') as h: h.write(data)].  A refused [open] leaves
    the file system as it was. *)
Definition write_file (fs : FS) (f : string) (data : list byte) : Result FS :=
  if bool_decide (f ∈ unwritable fs) then raise PermissionError
  else Ok (mkFS (<[f := data]> (files fs)) (unreadable fs) (unwritable fs)).

(** What the message boxes show.  Of the message bodies only the lines
    of the two "loaded" boxes that report the interpretation and the
    failed attempts are kept.  [Uncaught b] is not a box: the exception
    [b] leaves the method, none of whose handlers catches it, and
    nothing of the method runs after it. *)
Inductive Event : Type :=
  | ShowError (title : string)
  | ShowWarning (title : string)
  | ShowInfo (title : string) (details : list string)
  | AskYesNo (title : string) (answer : bool)
  | Uncaught (b : BaseExn).

(** The person at the dialogs. *)
Record User : Type := mkUser {
  asksaveasfilename : string;        (* empty when cancelled *)
  askopenfilename : string;          (* empty when cancelled *)
  ask_object_name : option string;   (* [result[0]]: None when cancelled *)
  askyesno : string -> bool          (* the answer to the box of that title *)
}.

(** The browser's fields the persistence code touches, with the file
    system and the boxes shown so far. *)
Record State : Type := mkState {
  current_object : Val;
  current_object_path : string;
  loaded_objects : gmap string Val;
  settings : Settings.JVal;
  fs : FS;
  events : list Event
}.

Definition say (e : Event) (st : State) : State :=
  mkState (current_object st) (current_object_path st) (loaded_objects st)
          (settings st) (fs st) (events st ++ [e]).

Definition set_fs (fs' : FS) (st : State) : State :=
  mkState (current_object st) (current_object_path st) (loaded_objects st)
          (settings st) fs' (events st).

(** [self.loaded_objects[name] = obj] *)
Definition store (name : string) (obj : Val) (st : State) : State :=
  mkState (current_object st) (current_object_path st)
          (<[name := obj]> (loaded_objects st))
          (settings st) (fs st) (events st).

Definition set_settings (s : Settings.JVal) (st : State) : State :=
  mkState (current_object st) (current_object_path st) (loaded_objects st)
          s (fs st) (events st).

(** [100 * 1024 * 1024  # 100 MB] *)
Definition large_file_limit : Z := 100 * 1024 * 1024.

Inductive Protocol : Type := HighestProtocol | DefaultProtocol.

(** ** The persistence codec *)

Section Codec.

Variable heap : loc -> Shape.
Variable py_bool : Val -> bool.                     (* bool(o) of an instance *)
Variable py_str : Val -> Result string.                          (* str(o) *)
Variable pickle_dumps : Protocol -> Val -> Result (list byte).   (* pickle.dumps *)
Variable pickle_loads : list byte -> Outcome Val.                (* pickle.loads *)
Variable json_dumps : Val -> Result string.          (* json.dumps(o, indent=2) *)
Variable json_loads : string -> Result Val.                      (* json.loads *)
Variable utf8_encode : string -> Result (list byte).   (* s.encode('utf-8') *)
Variable utf8_decode : list byte -> Result string.     (* b.decode('utf-8') *)

(** [bool(o)], as [if not self.current_object] takes it.  The truth of
    an instance is what its class makes of it ([__bool__], else
    [__len__], else true): an empty set, bytearray or deque is false. *)
Definition truthy (v : Val) : bool :=
  match v with
  | VNone => false
  | VBool b => b
  | VInt z => negb (z =? 0)%Z
  | VFloat bits => negb (Z.land bits (2 ^ 63 - 1) =? 0)%Z
  | VStr s => negb (String.eqb s "")
  | VBytes bs => negb (bool_decide (bs = []))
  | VObj l =>
      match heap l with
      | SDict es => negb (bool_decide (length es = 0))
      | SList xs | STuple xs => negb (bool_decide (length xs = 0))
      | SInst _ _ => py_bool v
      end
  end.

(** [isinstance(v, (tk.Widget, ttk.Widget))] *)
Definition is_widget (v : Val) : bool :=
  match v with
  | VObj l => match heap l with SInst c _ => cls_widget c | _ => false end
  | _ => false
  end.

(** [isinstance(v, non_picklable_types)] *)
Definition is_non_picklable_type (v : Val) : bool :=
  match v with
  | VObj l =>
      match heap l with
      | SInst c _ => cls_widget c || cls_window c
      | _ => false
      end
  | _ => false
  end.

(** [hasattr(v, '__dict__') and any(isinstance(x, (tk.Widget, ttk.Widget))
     for x in vars(v).values())] *)
Definition holds_widgets (v : Val) : bool :=
  match v with
  | VObj l =>
      match heap l with
      | SInst _ (Some d) => existsb (fun kv => is_widget kv.2) d
      | _ => false
      end
  | _ => false
  end.

(** *** Native format: [save_object_python] *)

(** The outer handlers of [save_object_python]: [except IOError], then
    [except Exception]. *)
Definition save_python_outer (e : Exn) (st : State) : State :=
  if caught_by [OSError] e then say (ShowError "File Write Error") st
  else say (ShowError "Unexpected Error") st.

(** The [try] block, once a file name is chosen. *)
Definition save_python_to (filename : string) (st : State) : State :=
  match pickle_dumps HighestProtocol (current_object st) with
  | Raise e =>
      if caught_by [PicklingError; TypeError; AttributeError] e
      then say (ShowError "Object Cannot Be Pickled") st
      else save_python_outer e st
  | Ok test_data =>
      match write_file (fs st) filename test_data with
      | Raise e => save_python_outer e st
      | Ok fs' => say (ShowInfo "✓ Object Saved Successfully" []) (set_fs fs' st)
      end
  end.

Definition save_object_python (u : User) (st : State) : State :=
  if negb (truthy (current_object st))
  then say (ShowWarning "No Object Selected") st
  else if is_non_picklable_type (current_object st)
  then say (ShowError "Cannot Pickle GUI Widget") st
  else
    let asked := holds_widgets (current_object st) in
    let result := askyesno u "Warning: Contains Widgets" in
    let st := if asked then say (AskYesNo "Warning: Contains Widgets" result) st
              else st in
    if asked && negb result then st
    else
      let filename := asksaveasfilename u in
      if bool_decide (filename = "") then st
      else save_python_to filename st.

(** *** Native format: [load_object_python] *)

(** The [except] clauses of [load_object_python], in order. *)
Definition load_python_error (e : Exn) : string :=
  if caught_by [UnpicklingError] e then "Invalid Pickle File"
  else if caught_by [EOFError; ValueError] e then "Corrupted File"
  else if caught_by [ImportError; ModuleNotFoundError] e then "Missing Module"
  else if caught_by [AttributeError] e then "Incompatible Version"
  else if caught_by [MemoryError] e then "Out of Memory"
  else "Load Failed".

(** [if not name] *)
Definition name_given (name : option string) : option string :=
  match name with
  | Some "" | None => None
  | Some n => Some n
  end.

(** [with open(filename, 'rb') as f: loaded_obj = pickle.load(f)] *)
Definition unpickle_file (fs : FS) (filename : string) : Outcome Val :=
  match read_file fs filename with
  | Raise e => Raises e
  | Ok data => pickle_loads data
  end.

(** The [try] block, once the size check is passed.  The last handler
    is [except Exception]: an exception outside [Exception] raised while
    unpickling leaves the method. *)
Definition load_python_from (u : User) (filename : string) (st : State) : State :=
  match unpickle_file (fs st) filename with
  | Exits b => say (Uncaught b) st
  | Raises e => say (ShowError (load_python_error e)) st
  | Returns loaded_obj =>
      match name_given (ask_object_name u) with
      | None => say (ShowInfo "Load Cancelled" []) st
      | Some name =>
          let dup := bool_decide (is_Some (loaded_objects st !! name)) in
          let result := askyesno u "Name Already Exists" in
          let st := if dup then say (AskYesNo "Name Already Exists" result) st
                    else st in
          if dup && negb result then st
          else say (ShowInfo "✓ Object Loaded" []) (store name loaded_obj st)
      end
  end.

Definition load_object_python (u : User) (st : State) : State :=
  let filename := askopenfilename u in
  if bool_decide (filename = "") then st
  else if negb (path_exists (fs st) filename)
  then say (ShowError "File Not Found") st
  else if negb (access_read (fs st) filename)
  then say (ShowError "Permission Denied") st
  else
    let file_size := getsize (fs st) filename in
    if (file_size >? large_file_limit)%Z then
      let result := askyesno u "Large File Warning" in
      let st := say (AskYesNo "Large File Warning" result) st in
      if negb result then st else load_python_from u filename st
    else load_python_from u filename st.

(** *** Portable binary format: [save_object_binary] *)

Definition is_bytes (v : Val) : bool :=
  match v with VBytes _ => true | _ => false end.

Definition is_str (v : Val) : bool :=
  match v with VStr _ => true | _ => false end.

(** [isinstance(v, (int, float))]; a [bool] is an [int]. *)
Definition is_number (v : Val) : bool :=
  match v with VInt _ | VBool _ | VFloat _ => true | _ => false end.

(** What the conversion chain leaves behind: the bytes and the method
    name, an error box shown and the save given up, or an exception on
    its way to the outer handlers. *)
Inductive Conversion : Type :=
  | Converted (data : list byte) (conversion_method : string)
  | Aborted (title : string)
  | Escaped (e : Exn).

Definition convert_binary (obj : Val) : Conversion :=
  match obj with
  | VBytes data =>                       (* isinstance(obj, bytes) *)
      Converted data "raw bytes"
  | VStr s =>                            (* isinstance(obj, str) *)
      match utf8_encode s with
      | Ok data => Converted data "UTF-8 encoded text"
      | Raise e =>
          if caught_by [UnicodeEncodeError] e then Aborted "Encoding Error"
          else Escaped e
      end
  | VInt _ | VBool _ | VFloat _ =>       (* isinstance(obj, (int, float)) *)
      match py_str obj ≫= utf8_encode with
      | Ok data => Converted data "number as UTF-8 text"
      | Raise e => Escaped e
      end
  | _ =>
      if is_dict heap obj || is_list_or_tuple heap obj then
        match json_dumps obj ≫= utf8_encode with
        | Ok data => Converted data "JSON encoded"
        | Raise e =>
            if caught_by [TypeError; ValueError] e then
              (* Fall back to pickle *)
              match pickle_dumps DefaultProtocol obj with
              | Ok data => Converted data "pickle (JSON failed)"
              | Raise _ => Aborted "Conversion Failed"
              end
            else Escaped e
        end
      else
        (* Try pickle as fallback *)
        match pickle_dumps DefaultProtocol obj with
        | Ok data => Converted data "pickle"
        | Raise _ => Aborted "Cannot Convert"
        end
  end.

(** The outer handlers of [save_object_binary]. *)
Definition save_binary_outer (e : Exn) (st : State) : State :=
  if caught_by [OSError] e then say (ShowError "File Write Error") st
  else say (ShowError "Save Failed") st.

(** The [try] block, once a file name is chosen.  Its [if data is None]
    is never taken: every rule that does not return sets [data]. *)
Definition save_binary_to (filename : string) (st : State) : State :=
  match convert_binary (current_object st) with
  | Aborted title => say (ShowError title) st
  | Escaped e => save_binary_outer e st
  | Converted data conversion_method =>
      match write_file (fs st) filename data with
      | Raise e => save_binary_outer e st
      | Ok fs' =>
          say (ShowInfo "✓ Binary Saved" ["Method: " +:+ conversion_method])
              (set_fs fs' st)
      end
  end.

Definition save_object_binary (u : User) (st : State) : State :=
  if negb (truthy (current_object st))
  then say (ShowWarning "No Object Selected") st
  else
    let filename := asksaveasfilename u in
    if bool_decide (filename = "") then st
    else save_binary_to filename st.

(** *** Portable binary format: [load_object_binary] *)

Definition is_none (v : Val) : bool :=
  match v with VNone => true | _ => false end.

(** The local variables of the chain. *)
Record Sniff : Type := mkSniff {
  loaded_obj : Val;
  interpretation : string;
  attempts : list string
}.

Definition failed (label : string) (e : Exn) (s : Sniff) : Sniff :=
  mkSniff (loaded_obj s) (interpretation s)
          (attempts s ++ [label +:+ ": " +:+ exn_name (exn_class e)]).

(** 1. Try pickle.  [except Exception] records the exceptions derived
    from [Exception]; any other leaves the chain. *)
Definition try_pickle (data : list byte) (s : Sniff) : Outcome Sniff :=
  match pickle_loads data with
  | Returns v => Returns (mkSniff v "Python pickle" (attempts s))
  | Raises e => Returns (failed "Pickle" e s)
  | Exits b => Exits b
  end.

(** 2. Try JSON *)
Definition try_json (data : list byte) (s : Sniff) : Sniff :=
  if is_none (loaded_obj s) then
    match utf8_decode data ≫= json_loads with
    | Ok v => mkSniff v "JSON" (attempts s)
    | Raise e => failed "JSON" e s
    end
  else s.

(** 3. Try plain text *)
Definition try_text (data : list byte) (s : Sniff) : Sniff :=
  if is_none (loaded_obj s) then
    match utf8_decode data with
    | Ok t => mkSniff (VStr t) "UTF-8 text" (attempts s)
    | Raise e => failed "UTF-8" e s
    end
  else s.

(** 4. Keep as raw bytes *)
Definition keep_raw (data : list byte) (s : Sniff) : Sniff :=
  if is_none (loaded_obj s) then mkSniff (VBytes data) "raw bytes" (attempts s)
  else s.

(** "Try multiple interpretations" *)
Definition sniff (data : list byte) : Outcome Sniff :=
  match try_pickle data (mkSniff VNone "unknown" []) with
  | Returns s => Returns (keep_raw data (try_text data (try_json data s)))
  | Raises e => Raises e
  | Exits b => Exits b
  end.

(** The outer handlers of [load_object_binary]. *)
Definition load_binary_error (e : Exn) : string :=
  if caught_by [OSError] e then "Read Error"
  else if caught_by [MemoryError] e then "Out of Memory"
  else "Load Failed".

Definition loaded_details (s : Sniff) : list string :=
  ("Interpretation: " +:+ interpretation s) ::
  match attempts s with
  | [] => []
  | _ => ["Attempted: " +:+ String.concat ", " (attempts s)]
  end.

(** The [try] block, once the size checks are passed.  What leaves the
    chain meets the outer handlers, the last of which is
    [except Exception]. *)
Definition load_binary_from (u : User) (filename : string) (st : State) : State :=
  match read_file (fs st) filename with
  | Raise e => say (ShowError (load_binary_error e)) st
  | Ok data =>
      match sniff data with
      | Exits b => say (Uncaught b) st
      | Raises e => say (ShowError (load_binary_error e)) st
      | Returns s =>
          match name_given (ask_object_name u) with
          | None => say (ShowInfo "Load Cancelled" []) st
          | Some name =>
              let dup := bool_decide (is_Some (loaded_objects st !! name)) in
              let result := askyesno u "Duplicate Name" in
              let st := if dup then say (AskYesNo "Duplicate Name" result) st
                        else st in
              if dup && negb result then st
              else say (ShowInfo "✓ Binary Loaded" (loaded_details s))
                       (store name (loaded_obj s) st)
          end
      end
  end.

Definition load_object_binary (u : User) (st : State) : State :=
  let filename := askopenfilename u in
  if bool_decide (filename = "") then st
  else if negb (path_exists (fs st) filename)
  then say (ShowError "File Not Found") st
  else if negb (access_read (fs st) filename)
  then say (ShowError "Permission Denied") st
  else
    let file_size := getsize (fs st) filename in
    if (file_size =? 0)%Z then say (ShowError "Empty File") st
    else if (file_size >? large_file_limit)%Z then
      let result := askyesno u "Large File" in
      let st := say (AskYesNo "Large File" result) st in
      if negb result then st else load_binary_from u filename st
    else load_binary_from u filename st.

End Codec.

(** The four interpretations the chain can report. *)
Definition known_interpretations : list string :=
  ["Python pickle"; "JSON"; "UTF-8 text"; "raw bytes"].


(** Once an object is set, the interpretation names the step that set it. *)
Definition settled (s : Sniff) : Prop :=
  is_none (loaded_obj s) = false -> interpretation s ∈ known_interpretations.

(** Structural equality: the same value, or references to containers of
    the same kind, or to instances of the same class, whose parts are
    structurally equal in order. *)
#[warnings="-register-all"]
Inductive struct_eq (heap : loc -> Shape) : Val -> Val -> Prop :=
  | struct_eq_same v : struct_eq heap v v
  | struct_eq_dict l l' es es' :
      heap l = SDict es -> heap l' = SDict es' ->
      Forall2 (fun kv kv' : Val * Val =>
                 struct_eq heap kv.1 kv'.1 /\ struct_eq heap kv.2 kv'.2) es es' ->
      struct_eq heap (VObj l) (VObj l')
  | struct_eq_list l l' xs xs' :
      heap l = SList xs -> heap l' = SList xs' ->
      Forall2 (struct_eq heap) xs xs' ->
      struct_eq heap (VObj l) (VObj l')
  | struct_eq_tuple l l' xs xs' :
      heap l = STuple xs -> heap l' = STuple xs' ->
      Forall2 (struct_eq heap) xs xs' ->
      struct_eq heap (VObj l) (VObj l')
  | struct_eq_inst l l' c d d' :
      heap l = SInst c (Some d) -> heap l' = SInst c (Some d') ->
      Forall2 (fun kv kv' : string * Val =>
                 kv.1 = kv'.1 /\ struct_eq heap kv.2 kv'.2) d d' ->
      struct_eq heap (VObj l) (VObj l').

(** The round trip as the specification states it, for one save to
    [filename] and one load from it under [name]: when serialization of
    the selected object succeeds, the load stores a value structurally
    equal to it. *)
Definition spec_round_trip (heap : loc -> Shape)
    (pickle_dumps : Protocol -> Val -> Result (list byte))
    (pickle_loads : list byte -> Outcome Val)
    (u : User) (filename name : string) (st : State) : Prop :=
  (exists buffer, pickle_dumps HighestProtocol (current_object st) = Ok buffer) ->
  exists v',
    loaded_objects
      (load_python_from pickle_loads u filename
         (save_python_to pickle_dumps filename st)) !! name = Some v'
    /\ struct_eq heap (current_object st) v'.

(** The totality of the chain as the specification states it: for the
    byte sequence [data] some interpretation is returned. *)
Definition spec_chain_total (pickle_loads : list byte -> Outcome Val)
    (json_loads : string -> Result Val)
    (utf8_decode : list byte -> Result string) (data : list byte) : Prop :=
  exists s, sniff pickle_loads json_loads utf8_decode data = Returns s
            /\ interpretation s ∈ known_interpretations.

(** The threshold as the specification describes it: taken from the
    setting [advanced.large_file_warning_mb], 100 MB when the setting is
    absent.  The program has no such function; it is here to state what
    the specification asks for. *)
Definition spec_configured_limit (s : Settings.JVal) : Z :=
  match Settings.lookup2 s "advanced" "large_file_warning_mb" with
  | Some (Settings.JInt mb) => (mb * 1024 * 1024)%Z
  | _ => (100 * 1024 * 1024)%Z
  end.

(** What the specification asks of a load path at one input: a file
    larger than the configured threshold is not loaded without the
    confirmation box of that title. *)
Definition spec_requires_confirmation (load : User -> State -> State)
    (title : string) (u : User) (st : State) : Prop :=
  (getsize (fs st) (askopenfilename u) > spec_configured_limit (settings st))%Z ->
  exists answer, AskYesNo title answer ∈ events (load u st).

(** [json.dumps] met a value it has no encoding for: it raises a
    [TypeError] or a [ValueError], the two classes of the inner [except]
    of the dict/list/tuple rule. *)
Definition structuring_failed (e : Exn) : bool :=
  caught_by [TypeError; ValueError] e.

(** ** A concrete runtime

    A small heap and a fragment of CPython's [str], [repr], [dir],
    [getattr], pickle, json and UTF-8 behaviour, enough to run the
    program on concrete inputs.  Where the fragment answers, it answers
    as CPython 3.8+ does; outside it, it raises [NotModelled]. *)

Module Sample.

Definition not_modelled {A : Type} : Result A :=
  Raise (mkExn (OtherError "NotModelled") "").

Definition plain (name : string) : ClassInfo := mkClass name false false false.
Definition callable_class (name : string) : ClassInfo := mkClass name true false false.

(** [0]: [l = []; l.append(l)].
    [1]: [{'k': Greeter}] with [class Greeter: def run(self): ...].
    [2]: the class [Greeter].  [3]: the function [Greeter.run].
    [4]: [b = Box(); b.me = b].
    [5]: [[2, 3]].  [6]: [{'a': 1, 'b': [2, 3]}].
    [7]: [[Greeter]].  [8]: the class [Box].
    [9]: a [tk.Button].
    [10]: [h = Holder(); h.callback = lambda: None].  [11]: that lambda.
    [12]: [{'h': h}].
    [13]: [Zero()] with
          [class Zero: def __reduce__(self): return (int, (0,))].
    [14]: [set()]. *)
Definition heap (l : loc) : Shape :=
  match l with
  | 0 => SList [VObj 0]
  | 1 => SDict [(VStr "k", VObj 2)]
  | 2 => SInst (callable_class "type") (Some [("run", VObj 3)])
  | 3 => SInst (callable_class "function") (Some [])
  | 4 => SInst (plain "Box") (Some [("me", VObj 4)])
  | 5 => SList [VInt 2; VInt 3]
  | 6 => SDict [(VStr "a", VInt 1); (VStr "b", VObj 5)]
  | 7 => SList [VObj 2]
  | 8 => SInst (callable_class "type") (Some [])
  | 9 => SInst (mkClass "Button" false true false) (Some [])
  | 10 => SInst (plain "Holder") (Some [("callback", VObj 11)])
  | 11 => SInst (callable_class "function") (Some [])
  | 12 => SDict [(VStr "h", VObj 10)]
  | 13 => SInst (plain "Zero") (Some [])
  | 14 => SInst (plain "set") None
  | _ => SInst (plain "object") None
  end.

(** [bool(o)] of an instance: the empty set is false. *)
Definition py_bool (v : Val) : bool :=
  match v with
  | VObj 14 => false
  | _ => true
  end.

Definition py_str (v : Val) : Result string :=
  match v with
  | VNone => Ok "None"
  | VBool true => Ok "True"
  | VBool false => Ok "False"
  | VInt z => Ok (pretty z)
  | VStr s => Ok s
  | _ => not_modelled
  end.

(** [repr] of a string without quotes, backslashes or control characters
    is the string between single quotes; other strings are taken as such
    here too. *)
Definition py_repr (v : Val) : Result string :=
  match v with
  | VStr s => Ok ("'" +:+ s +:+ "'")
  | _ => py_str v
  end.

(** The names [dir] lists, cut down to one reserved and the public ones. *)
Definition py_dir (v : Val) : Result (list string) :=
  match v with
  | VObj 2 => Ok ["__name__"; "run"]
  | VObj 3 => Ok ["__name__"]
  | VObj 4 => Ok ["__class__"; "me"]
  | VObj 8 => Ok ["__name__"]
  | _ => Ok []
  end.

Definition py_getattr (v : Val) (name : string) : Result Val :=
  match v, name with
  | VObj 2, "__name__" => Ok (VStr "Greeter")
  | VObj 2, "run" => Ok (VObj 3)
  | VObj 3, "__name__" => Ok (VStr "run")
  | VObj 4, "__class__" => Ok (VObj 8)
  | VObj 4, "me" => Ok (VObj 4)
  | VObj 8, "__name__" => Ok (VStr "Box")
  | _, _ => raise AttributeError
  end.

(** [pickle.dumps(Zero(), p)] after the protocol byte: a frame that
    applies [builtins.int] to [(0,)]. *)
Definition zero_body : list byte :=
  [x95; x1a; x00; x00; x00; x00; x00; x00; x00;
   x8c; x08; x62; x75; x69; x6c; x74; x69; x6e; x73; x94;
   x8c; x03; x69; x6e; x74; x94; x93; x94;
   x4b; x00; x85; x94; x52; x94; x2e].

(** [b'csys\nexit\n(tR.']: a protocol-0 pickle that applies [sys.exit]
    to [()]. *)
Definition exit_pickle : list byte :=
  [x63; x73; x79; x73; x0a; x65; x78; x69; x74; x0a; x28; x74; x52; x2e].

(** The two byte sequences are the same. *)
Definition same_bytes (a b : list byte) : bool :=
  bool_decide (Byte.to_N <$> a = Byte.to_N <$> b).

Definition not_unpickled {A : Type} : Outcome A :=
  Raises (mkExn (OtherError "NotModelled") "").

(** pickle: the opcodes PROTO ([0x80]), NONE ([N]), NEWTRUE ([0x88]),
    NEWFALSE ([0x89]), BININT1 ([K]) and STOP ([.]), and the two pickles
    above. *)
Definition pickle_body (body : list byte) : Outcome Val :=
  match body with
  | [] => Raises (mkExn EOFError "")
  | [x4e; x2e] => Returns VNone
  | [x88; x2e] => Returns (VBool true)
  | [x89; x2e] => Returns (VBool false)
  | [x4b; n; x2e] => Returns (VInt (Z.of_N (Byte.to_N n)))
  | _ => if same_bytes body zero_body then Returns (VInt 0)
         else not_unpickled
  end.

Definition pickle_loads (data : list byte) : Outcome Val :=
  match data with
  | x80 :: v :: body =>
      if (Byte.to_N v <=? 5)%N then pickle_body body
      else Raises (mkExn ValueError "")   (* unsupported pickle protocol *)
  | [x4e; x2e] => Returns VNone
  | [] => Raises (mkExn EOFError "")
  | _ => if same_bytes data exit_pickle then Exits SystemExit
         else not_unpickled
  end.

Definition protocol_byte (p : Protocol) : byte :=
  match p with
  | HighestProtocol => x05
  | DefaultProtocol => x04
  end.

Definition pickle_dumps (p : Protocol) (v : Val) : Result (list byte) :=
  match v with
  | VNone => Ok [x80; protocol_byte p; x4e; x2e]
  | VBool true => Ok [x80; protocol_byte p; x88; x2e]
  | VBool false => Ok [x80; protocol_byte p; x89; x2e]
  | VInt z =>
      if ((0 <=? z) && (z <? 256))%Z then
        match Byte.of_N (Z.to_N z) with
        | Some n => Ok [x80; protocol_byte p; x4b; n; x2e]
        | None => not_modelled
        end
      else not_modelled
  | VObj 10 | VObj 11 | VObj 12 =>
      raise PicklingError        (* Can't pickle <function <lambda>> *)
  | VObj 13 => Ok (x80 :: protocol_byte p :: zero_body)
  | VObj l =>
      match heap l with
      | SInst c _ =>
          if cls_widget c || cls_window c
          then raise TypeError   (* cannot pickle '_tkinter.tkapp' object *)
          else not_modelled
      | _ => not_modelled
      end
  | _ => not_modelled
  end.

Definition is_ascii (b : byte) : bool := (Byte.to_N b <? 128)%N.

(** A byte that can never start a UTF-8 sequence: a continuation byte
    or [0xF8..0xFF]. *)
Definition invalid_start (b : byte) : bool :=
  ((128 <=? Byte.to_N b) && (Byte.to_N b <? 192) || (248 <=? Byte.to_N b))%N.

Fixpoint utf8_decode_bytes (data : list byte) : Result string :=
  match data with
  | [] => Ok ""
  | b :: rest =>
      if is_ascii b then
        match utf8_decode_bytes rest with
        | Ok s => Ok (String (ascii_of_byte b) s)
        | Raise e => Raise e
        end
      else if invalid_start b then raise UnicodeDecodeError
      else not_modelled
  end.

Definition utf8_decode := utf8_decode_bytes.

Definition utf8_encode (s : string) : Result (list byte) :=
  if forallb is_ascii (list_byte_of_string s)
  then Ok (list_byte_of_string s)
  else not_modelled.

Definition json_loads (s : string) : Result Val :=
  if String.eqb s "null" then Ok VNone
  else if String.eqb s "true" then Ok (VBool true)
  else if String.eqb s "false" then Ok (VBool false)
  else if String.eqb s "N." then raise JSONDecodeError
  else not_modelled.

(** json: the scalars, and the failure on a value json has no encoding
    for (the class inside [{'k': Greeter}], the instance inside
    [{'h': h}]). *)
Definition json_dumps (v : Val) : Result string :=
  match v with
  | VNone => Ok "null"
  | VBool true => Ok "true"
  | VBool false => Ok "false"
  | VInt z => Ok (pretty z)
  | VObj 1 => raise TypeError   (* Object of type type is not JSON serializable *)
  | VObj 12 => raise TypeError  (* Object of type Holder is not JSON serializable *)
  | _ => not_modelled
  end.

Definition enumerate_object :=
  _enumerate_object heap py_str py_repr py_dir py_getattr.

Definition chain := sniff pickle_loads json_loads utf8_decode.

Definition nobody : User := mkUser "" "" None (fun _ => false).

Definition empty_fs : FS := mkFS ∅ ∅ ∅.

Definition initial (obj : Val) (fs : FS) : State :=
  mkState obj "self.current_object" ∅ (Settings.JObj []) fs [].

(** Somebody who opens [filename], names the object [name] and answers
    no to every question. *)
Definition opener (filename name : string) : User :=
  mkUser "" filename (Some name) (fun _ => false).

(** A file system holding the one file [filename]. *)
Definition fs_with (filename : string) (data : list byte) : FS :=
  mkFS {[ filename := data ]} ∅ ∅.

(** The browser with nothing selected or loaded, and [s] as settings. *)
Definition idle (s : Settings.JVal) (fs : FS) : State :=
  mkState VNone "" ∅ s fs [].

(** Settings that put the large-file threshold at 0 MB. *)
Definition warn_always : Settings.JVal :=
  Settings.JObj
    [("advanced", Settings.JObj [("large_file_warning_mb", Settings.JInt 0)])].

(** [pickle.dumps(5)] *)
Definition pickled_five : list byte := [x80; x04; x4b; x05; x2e].

(** [pickle.dumps(None)] *)
Definition pickled_none : list byte := [x80; x04; x4e; x2e].

End Sample.

(** ** The rest of the object browser: the full tree, the members pane
       and the tree filter *)

(** A node with everything below it, in insertion order. *)
Fixpoint subtree (n : Node) : list Node :=
  n :: flat_map subtree (children n).

Section Browser.

Variable heap : loc -> Shape.
Variable py_str : Val -> Result string.                 (* str(o) *)
Variable py_repr : Val -> Result string.                (* repr(o) *)
Variable py_dir : Val -> Result (list string).          (* dir(o) *)
Variable py_getattr : Val -> string -> Result Val.      (* getattr(o, name) *)
Variable py_signature : Val -> Result string.    (* str(inspect.signature(o)) *)
Variable py_lower : string -> string.                   (* s.lower() *)

(** *** What each branch of [_enumerate_object] gives a node to *)

(** [str(key)] and [repr(key)] both answer. *)
Definition key_answers (kv : Val * Val) : bool :=
  match py_str kv.1, py_repr kv.1 with
  | Ok _, Ok _ => true
  | _, _ => false
  end.

(** The entries of a dict up to the first key that does not answer. *)
Fixpoint answered_entries (items : list (Val * Val)) : list (Val * Val) :=
  match items with
  | [] => []
  | kv :: rest => if key_answers kv then kv :: answered_entries rest else []
  end.

(** The value an attribute name gets a node for, if it gets one: not a
    name skipped as private, [getattr] answers, and so does the [repr]
    of the preview where there is one. *)
Definition attr_shown (obj : Val) (depth : nat) (attr_name : string) : option Val :=
  if bool_decide (0 < depth) && starts_with_underscore attr_name then None
  else
    match py_getattr obj attr_name with
    | Raise _ => None
    | Ok attr_value =>
        if is_simple attr_value then
          match py_repr attr_value with
          | Ok _ => Some attr_value
          | Raise _ => None
          end
        else Some attr_value
    end.

(** The step from a value to one of the values the walker reaches from
    it, as the walker writes it into the path: [[repr(key)]] for the
    entry of a dict under [key], [[i]] for the element of index [i] of a
    list or tuple, [.name] for an attribute that [dir] lists and
    [getattr] answers for. *)
Definition access_step (parent child : Val) (step : string) : Prop :=
  if is_dict heap parent then
    exists key key_repr,
      (key, child) ∈ dict_items heap parent
      /\ py_repr key = Ok key_repr
      /\ step = "[" +:+ key_repr +:+ "]"
  else if is_list_or_tuple heap parent then
    exists idx,
      seq_items heap parent !! idx = Some child
      /\ step = "[" +:+ pretty idx +:+ "]"
  else
    exists names attr_name,
      py_dir parent = Ok names
      /\ attr_name ∈ names
      /\ py_getattr parent attr_name = Ok child
      /\ step = "." +:+ attr_name.

(** The node [c] stands one access step below the value [parent], whose
    path is [parent_path]. *)
Definition stepped (parent : Val) (parent_path : string) (c : Node) : Prop :=
  exists step,
    access_step parent (underlying c) step
    /\ path c = parent_path +:+ step.

(** Every root of the forest stands one step below [obj], and every
    other node one step below its parent. *)
Definition well_stepped (obj : Val) (obj_name : string) (f : list Node) : Prop :=
  Forall (stepped obj obj_name) f
  /\ Forall (fun n => Forall (stepped (underlying n) (path n)) (children n))
            (flat_map subtree f).

(** *** [populate_full_object_tree] *)

(** [for name, obj in self.loaded_objects.items(): ...] *)
Fixpoint loaded_nodes (loaded : list (string * Val)) : option (list Node) :=
  match loaded with
  | [] => Some []
  | (name, obj) :: rest =>
      let obj_type := type_name heap obj in
      let obj_path := "self.loaded_objects['" +:+ name +:+ "']" in
      kids ← _enumerate_object heap py_str py_repr py_dir py_getattr
               6 obj obj_path 0 6;
      more ← loaded_nodes rest;
      Some (mkNode (name +:+ ": " +:+ obj_type) obj_type obj_path obj kids :: more)
  end.

(** The tree after [populate_full_object_tree]: the old items are
    deleted, the browser itself is enumerated under the root item, and
    the loaded objects, when there are any, under a second item.
    [self_obj] is the browser, [loaded_dict] its [loaded_objects] dict
    and [loaded] the items of that dict. *)
Definition populate_full_object_tree (self_obj loaded_dict : Val)
    (loaded : list (string * Val)) : option (list Node) :=
  root_kids ← _enumerate_object heap py_str py_repr py_dir py_getattr
                6 self_obj "self" 0 6;
  let root := mkNode "ObjectBrowser (self)" "ObjectBrowser" "self" self_obj
                     root_kids in
  match loaded with
  | [] => Some [root]
  | _ =>
      objs ← loaded_nodes loaded;
      Some [root;
            mkNode ("📦 Loaded Objects (" +:+ pretty (length loaded) +:+ ")")
                   "dict" "self.loaded_objects" loaded_dict objs]
  end.

(** *** [populate_members] *)

(** [attr_name.startswith('__') and attr_name.endswith('__')] *)
Definition is_magic (attr_name : string) : bool :=
  String.prefix "__" attr_name
  && bool_decide (2 <= String.length attr_name)
  && String.eqb (substring (String.length attr_name - 2) 2 attr_name) "__".

(** One row of the members tree: its text and its two value columns. *)
Record Member : Type := mkMember {
  member_text : string;
  member_type : string;
  member_detail : string
}.

(** The rows under the three section items. *)
Record Members : Type := mkMembers {
  props : list Member;      (* "Properties" *)
  methods : list Member;    (* "Methods" *)
  special : list Member     (* "Special/Magic" *)
}.

Definition add_prop (m : Member) (ms : Members) : Members :=
  mkMembers (props ms ++ [m]) (methods ms) (special ms).
Definition add_method (m : Member) (ms : Members) : Members :=
  mkMembers (props ms) (methods ms ++ [m]) (special ms).
Definition add_special (m : Member) (ms : Members) : Members :=
  mkMembers (props ms) (methods ms) (special ms ++ [m]).

(** The body of the inner [try] for one attribute. *)
Definition add_member (obj : Val) (attr_name : string) (ms : Members) : Members :=
  match py_getattr obj attr_name with
  | Raise _ => ms
  | Ok attr_value =>
      let attr_type := type_name heap attr_value in
      if callable heap attr_value then
        let sig := match py_signature attr_value with
                   | Ok s => s
                   | Raise _ => "()"
                   end in
        if is_magic attr_name
        then add_special (mkMember (attr_name +:+ sig) attr_type "magic method") ms
        else add_method (mkMember (attr_name +:+ sig) attr_type "method") ms
      else
        let value_preview :=
          if is_simple attr_value then
            match py_repr attr_value with
            | Ok r => substring 0 100 r
            | Raise _ => "<error>"
            end
          else "<" +:+ attr_type +:+ ">" in
        if is_magic attr_name
        then add_special (mkMember attr_name attr_type value_preview) ms
        else add_prop (mkMember attr_name attr_type value_preview) ms
  end.

(** [populate_members(obj)]: the members tree is emptied and filled
    again; [dir(obj)] raising leaves the three sections empty. *)
Definition populate_members (obj : Val) : Members :=
  match py_dir obj with
  | Raise _ => mkMembers [] [] []
  | Ok names => fold_left (fun ms attr_name => add_member obj attr_name ms)
                          names (mkMembers [] [] [])
  end.

(** The section a name of [dir(obj)] is listed in, if [getattr] answers
    for it. *)
Inductive MemberSection : Type := InProps | InMethods | InSpecial.

#[global] Instance MemberSection_eq_dec : EqDecision MemberSection.
Proof. solve_decision. Defined.

Definition member_section (obj : Val) (attr_name : string) : option MemberSection :=
  match py_getattr obj attr_name with
  | Raise _ => None
  | Ok attr_value =>
      Some (if is_magic attr_name then InSpecial
            else if callable heap attr_value then InMethods
            else InProps)
  end.

Definition listed_in (sec : MemberSection) (obj : Val) (attr_name : string) : bool :=
  bool_decide (member_section obj attr_name = Some sec).

(** *** [filter_object_tree] *)

(** The inner [search_tree(item)]: whether the item or something below
    it matched, and the items it opened, in the order of the
    [item(..., open=True)] calls. *)
Fixpoint search_tree (query : string) (item : Node) : bool * list Node :=
  match item with
  | mkNode item_text _ _ _ kids =>
      let found := Settings.substring_of query (py_lower item_text) in
      let below := map (search_tree query) kids in
      let child_match := existsb fst below in
      let opened := concat (map snd below) in
      if found || child_match then (true, opened ++ [item])
      else (false, opened)
  end.

(** What [filter_object_tree] does to the tree: with an empty search
    box it is rebuilt, otherwise some of its items are opened. *)
Inductive Filtered : Type :=
  | Rebuilt
  | Opened (items : list Node).

Definition filter_object_tree (search_text : string) (tree : list Node) : Filtered :=
  let query := py_lower search_text in
  if bool_decide (query = "") then Rebuilt
  else Opened (concat (map (fun item => (search_tree query item).2) tree)).

(** The item's own text contains the query. *)
Definition matches (query : string) (item : Node) : bool :=
  Settings.substring_of query (py_lower (text item)).

(** The item or something below it matches. *)
Definition matches_below (query : string) (item : Node) : bool :=
  existsb (matches query) (subtree item).

End Browser.

(** ** The rest of the settings window, and the browser's own reading of
       the settings *)

Module SettingsWindow.
Import Settings.

(** [self.settings] and [self.settings_modified] *)
Record Window : Type := mkWindow {
  settings : JVal;
  settings_modified : bool
}.

(** [update_setting(category, key, value)]:
    [if category in self.settings and key in self.settings[category]:
       self.settings[category][key] = value; self.settings_modified = True] *)
Definition update_setting (category key : string) (value : JVal) (w : Window)
    : Result Window :=
  has_category ← py_in category (settings w);
  if negb has_category then Ok w
  else
    inner ← py_getitem (settings w) category;
    has_key ← py_in key inner;
    if negb has_key then Ok w
    else
      inner' ← py_setitem inner key value;
      settings' ← py_setitem (settings w) category inner';
      Ok (mkWindow settings' true).

(** The six categories of the tree, with their display names. *)
Definition categories : list (string * string) :=
  [ ("browser", "🧠 Browser Settings");
    ("display", "🎨 Display & Appearance");
    ("editor", "📝 Code Editor");
    ("persistence", "💾 Persistence & Files");
    ("advanced", "🔧 Advanced Options");
    ("colors", "🎨 Color Scheme") ].

(** One item of the settings tree: its text and its [values]. *)
Record Item : Type := mkItem {
  item_text : string;
  item_values : list string
}.

(** [d.keys()] *)
Definition py_keys (d : JVal) : Result (list string) :=
  match d with
  | JObj kvs => Ok (kvs.*1)
  | _ => raise AttributeError
  end.

(** [key.replace("_", " ")] *)
Fixpoint replace_underscores (key : string) : string :=
  match key with
  | EmptyString => EmptyString
  | String c rest =>
      String (if bool_decide (c = "_"%char) then " "%char else c)
             (replace_underscores rest)
  end.

(** The keys of [s[category]], in order; none when there is no such dict. *)
Definition keys_of (s : JVal) (category : string) : list string :=
  match lookup1 s category with
  | Some (JObj kvs) => kvs.*1
  | _ => []
  end.

(** The item of a category. *)
Definition category_item (cn : string * string) : Item :=
  mkItem cn.2 [cn.1].

Section Tree.

Variable py_title : string -> string.          (* s.title() *)
Variable py_lower : string -> string.          (* s.lower() *)
Variable py_str : JVal -> string.              (* str(value) *)

Definition display_key (key : string) : string :=
  py_title (replace_underscores key).

Definition setting_item (category key : string) : Item :=
  mkItem ("  " +:+ display_key key) [category; key].

(** [if category in self.settings:
       for key in self.settings[category].keys(): ...] *)
Definition category_children (s : JVal) (category : string) : Result (list Item) :=
  present ← py_in category s;
  if (present : bool) then
    (inner ← py_getitem s category;
     keys ← py_keys inner;
     Ok (map (setting_item category) keys))
  else Ok [].

Fixpoint populate_categories (s : JVal) (cats : list (string * string))
    : Result (list (Item * list Item)) :=
  match cats with
  | [] => Ok []
  | (category, display_name) :: rest =>
      kids ← category_children s category;
      more ← populate_categories s rest;
      Ok ((mkItem display_name [category], kids) :: more)
  end.

(** [populate_tree]: the tree is emptied, then gets one item per
    category, each with one child per setting.  [Raise] is an exception
    leaving [populate_tree]; the items inserted before it are not kept
    track of. *)
Definition populate_tree (s : JVal) : Result (list (Item * list Item)) :=
  populate_categories s categories.

(** [query in key.lower() or
     query in str(self.settings[category][key]).lower()] *)
Definition setting_matches (query : string) (inner : JVal) (key : string)
    : Result bool :=
  if substring_of query (py_lower key) then Ok true
  else
    (value ← py_getitem inner key;
     Ok (substring_of query (py_lower (py_str value)))).

Fixpoint matching_keys (query : string) (inner : JVal) (keys : list string)
    : Result (list string) :=
  match keys with
  | [] => Ok []
  | key :: rest =>
      hit ← setting_matches query inner key;
      more ← matching_keys query inner rest;
      Ok (if (hit : bool) then key :: more else more)
  end.

Definition matching_items (query : string) (s : JVal) (category : string)
    : Result (list string) :=
  present ← py_in category s;
  if (present : bool) then
    (inner ← py_getitem s category;
     keys ← py_keys inner;
     matching_keys query inner keys)
  else Ok [].

Fixpoint filter_categories (query : string) (s : JVal)
    (cats : list (string * string)) : Result (list (Item * list Item)) :=
  match cats with
  | [] => Ok []
  | (category, display_name) :: rest =>
      found ← matching_items query s category;
      more ← filter_categories query s rest;
      Ok (if negb (bool_decide (found = []))
             || substring_of query (py_lower display_name)
          then (mkItem display_name [category],
                map (setting_item category) found) :: more
          else more)
  end.

(** What [filter_tree] tests a setting that exists for. *)
Definition key_matches (query : string) (s : JVal) (category key : string)
    : bool :=
  substring_of query (py_lower key)
  || match lookup2 s category key with
     | Some value => substring_of query (py_lower (py_str value))
     | None => false
     end.

(** [filter_tree] *)
Definition filter_tree (search_text : string) (s : JVal)
    : Result (list (Item * list Item)) :=
  let query := py_lower search_text in
  if bool_decide (query = "") then populate_tree s
  else filter_categories query s categories.

(** [import_settings]: [filename] is what the file dialog returned,
    [parsed] what [open] and [json.load] give for it, [confirm] the
    answer to the confirmation box.  The result is the window and the
    boxes shown. *)
Definition import_settings (filename : string) (parsed : Result JVal)
    (confirm : bool) (w : Window) : Window * list Event :=
  if bool_decide (filename = "") then (w, [])
  else
    match parsed with
    | Raise e =>
        if caught_by [JSONDecodeError] e then (w, [ShowError "Parse Error"])
        else (w, [ShowError "Import Error"])
    | Ok imported =>
        match imported with
        | JObj _ =>
            if confirm then
              let w' := mkWindow imported (settings_modified w) in
              match populate_tree imported with
              | Ok _ =>
                  (w', [AskYesNo "⚠️ Confirm Import" true;
                        ShowInfo "✓ Import Successful" []])
              | Raise e =>
                  (w', [AskYesNo "⚠️ Confirm Import" true;
                        ShowError (if caught_by [JSONDecodeError] e
                                   then "Parse Error" else "Import Error")])
              end
            else (w, [AskYesNo "⚠️ Confirm Import" false])
        | _ => (w, [ShowError "Invalid Format"])
        end
    end.

End Tree.

(** A JSON scalar other than a string: [None], a bool or a number. *)
Definition is_scalar (v : JVal) : bool :=
  match v with
  | JNull | JBool _ | JInt _ | JFloat _ => true
  | _ => false
  end.

End SettingsWindow.

(** [ObjectBrowser.load_settings] and the editor command the browser
    takes from the settings. *)
Module BrowserSettings.
Import Settings.

(** [{'advanced': {'editor_command': 'notepad {filename}'}}] *)
Definition fallback_settings : JVal :=
  JObj [("advanced", JObj [("editor_command", JStr "notepad {filename}")])].

(** [load_settings]: [file] is [None] when [settings.json] does not
    exist, otherwise what [open] and [json.load] give; an exception is
    swallowed. *)
Definition load_settings (file : option (Result JVal)) : JVal :=
  match file with
  | Some (Ok loaded) => loaded
  | _ => fallback_settings
  end.

(** [d.get(key, default)] *)
Definition py_get (d : JVal) (key : string) (default : JVal) : Result JVal :=
  match d with
  | JObj kvs =>
      Ok (match assoc kvs key with Some v => v | None => default end)
  | _ => raise AttributeError
  end.

(** [self.settings.get('advanced', {}).get('editor_command',
                                            'notepad {filename}')] *)
Definition editor_command (s : JVal) : Result JVal :=
  advanced ← py_get s "advanced" (JObj []);
  py_get advanced "editor_command" (JStr "notepad {filename}").

(** [reload_settings]: the new settings and editor command; the
    "Settings Reloaded" box comes after both. *)
Definition reload_settings (file : option (Result JVal)) : Result (JVal * JVal) :=
  let s := load_settings file in
  command ← editor_command s;
  Ok (s, command).

End BrowserSettings.

(** ** More of the concrete runtime

    [inspect.signature], [str.lower], [str.title] and [str] of a JSON
    value, for text whose cased letters are ASCII. *)

Module Demo.
Import Settings.

(** [str(inspect.signature(o))]: the function [run] of the sample heap;
    a class without [__init__] parameters has the signature [()]. *)
Definition py_signature (v : Val) : Result string :=
  match v with
  | VObj 3 => Ok "(self)"
  | VObj 2 | VObj 8 => Ok "()"
  | VObj 11 => Ok "()"
  | _ => raise ValueError
  end.

Definition is_upper (c : ascii) : bool :=
  (65 <=? nat_of_ascii c) && (nat_of_ascii c <=? 90).

Definition is_lower (c : ascii) : bool :=
  (97 <=? nat_of_ascii c) && (nat_of_ascii c <=? 122).

Definition to_lower (c : ascii) : ascii :=
  if is_upper c then ascii_of_nat (nat_of_ascii c + 32) else c.

Definition to_upper (c : ascii) : ascii :=
  if is_lower c then ascii_of_nat (nat_of_ascii c - 32) else c.

(** [s.lower()] *)
Fixpoint py_lower (s : string) : string :=
  match s with
  | EmptyString => EmptyString
  | String c rest => String (to_lower c) (py_lower rest)
  end.

(** [s.title()]: a letter that follows a letter is lowered, any other
    letter is raised. *)
Fixpoint title_from (after_letter : bool) (s : string) : string :=
  match s with
  | EmptyString => EmptyString
  | String c rest =>
      if is_upper c || is_lower c
      then String (if after_letter then to_lower c else to_upper c)
                  (title_from true rest)
      else String c (title_from false rest)
  end.

Definition py_title (s : string) : string := title_from false s.

(** [str(value)] for [None], a bool, an int and a str; the empty text
    stands for the [str] of a float, a list and a dict, which are not
    modelled. *)
Definition py_str (v : JVal) : string :=
  match v with
  | JNull => "None"
  | JBool true => "True"
  | JBool false => "False"
  | JInt z => pretty z
  | JStr s => s
  | _ => ""
  end.

(** A document with one custom value, a category the window does not
    know and no [colors]. *)
Definition document : JVal :=
  JObj [ ("browser", JObj [("max_depth", JInt 9); ("show_private", JBool true)]);
         ("editor", JObj [("tab_size", JInt 8)]);
         ("plugins", JObj [("enabled", JBool true)]) ].

(** A document whose [browser] entry is a number. *)
Definition broken_document : JVal :=
  JObj [ ("browser", JInt 5);
         ("editor", JObj [("tab_size", JInt 8)]) ].

End Demo.
(** ** Facts about the walker *)

Section WalkerFacts.

Variable heap : loc -> Shape.
Variable py_str : Val -> Result string.
Variable py_repr : Val -> Result string.
Variable py_dir : Val -> Result (list string).
Variable py_getattr : Val -> string -> Result Val.

Local Abbreviation enum := (_enumerate_object heap py_str py_repr py_dir py_getattr).

Lemma node_levels_unfold d n :
  node_levels d n = (d, n) :: forest_levels (S d) (children n).
Proof. by destruct n. Qed.

Lemma forest_levels_cons d n f :
  forest_levels d (n :: f) = node_levels d n ++ forest_levels d f.
Proof. reflexivity. Qed.

Lemma levels_below_cons m d tx ty p v kids f :
  d < m ->
  levels_below m (forest_levels (S d) kids) ->
  levels_below m (forest_levels d f) ->
  levels_below m (forest_levels d (mkNode tx ty p v kids :: f)).
Proof.
  intros Hd Hk Hf. rewrite forest_levels_cons, node_levels_unfold.
  apply Forall_app; split; [|done]. by constructor.
Qed.

Lemma levels_below_nil m d : levels_below m (forest_levels d []).
Proof. constructor. Qed.

Section LoopFacts.
Variables (rec : Val -> string -> option (list Node)) (d m : nat).
Hypothesis Hd : d < m.
Hypothesis Hrec : rec_ok rec (S d) m.

Lemma kids_ok (b : bool) v p :
  exists f, (if b then rec v p else Some []) = Some f
            /\ levels_below m (forest_levels (S d) f).
Proof.
  destruct b; [apply Hrec|]. exists []. split; [done|apply levels_below_nil].
Qed.

Lemma enum_dict_ok obj_name items :
  exists f, enum_dict heap py_str py_repr rec obj_name items = Some f
            /\ levels_below m (forest_levels d f).
Proof.
  induction items as [|[key value] rest IH]; simpl.
  - exists []. split; [done|apply levels_below_nil].
  - destruct (py_str key) as [ks|]; [destruct (py_repr key) as [kr|]|];
      try (exists []; split; [done|apply levels_below_nil]).
    destruct (kids_ok (negb (is_simple_or_none value)) value
                (obj_name +:+ "[" +:+ kr +:+ "]")) as (kids & -> & Hk).
    destruct IH as (more & -> & Hm). simpl.
    eexists; split; [done|]. by apply levels_below_cons.
Qed.

Lemma enum_seq_ok obj_name idx items :
  exists f, enum_seq heap py_repr rec obj_name idx items = Some f
            /\ levels_below m (forest_levels d f).
Proof.
  revert idx. induction items as [|value rest IH]; intros idx; simpl.
  - exists []. split; [done|apply levels_below_nil].
  - destruct (kids_ok (negb (is_simple_or_none value)) value
                (obj_name +:+ "[" +:+ pretty idx +:+ "]")) as (kids & -> & Hk).
    destruct (IH (S idx)) as (more & -> & Hm). simpl.
    eexists; split; [done|]. by apply levels_below_cons.
Qed.

Lemma enum_attr_ok obj obj_name attr_name :
  exists r, enum_attr heap py_repr py_getattr rec obj obj_name attr_name = Some r
            /\ forall n, r = Ok n ->
                 levels_below m (forest_levels (S d) (children n)).
Proof.
  unfold enum_attr.
  destruct (py_getattr obj attr_name) as [av|e]; [|by eexists].
  destruct (is_simple av); [destruct (py_repr av)|]; try by eexists.
  all: match goal with
       | |- context [ (if ?b then if ?c then _ else _ else _) ] =>
           destruct (kids_ok (b && c) av (obj_name +:+ "." +:+ attr_name))
             as (kids & Hkids & Hk);
           replace (if b then if c then rec av (obj_name +:+ "." +:+ attr_name)
                              else Some [] else Some [])
             with (if b && c then rec av (obj_name +:+ "." +:+ attr_name)
                   else Some []) by (by destruct b, c);
           rewrite Hkids
       end; simpl; eexists; (split; [done|]); by intros n [= <-].
Qed.

Lemma enum_attrs_ok obj obj_name names :
  exists f, enum_attrs heap py_repr py_getattr rec obj obj_name d names = Some f
            /\ levels_below m (forest_levels d f).
Proof.
  induction names as [|attr_name rest IH]; simpl.
  - exists []. split; [done|apply levels_below_nil].
  - destruct (bool_decide (0 < d) && starts_with_underscore attr_name); [done|].
    destruct (enum_attr_ok obj obj_name attr_name) as (r & -> & Hr).
    destruct IH as (more & -> & Hm). simpl.
    destruct r as [n|]; eexists; (split; [done|]); [|done].
    destruct n as [tx ty p v kids].
    apply levels_below_cons; [done| |done]. by apply (Hr _ eq_refl).
Qed.
End LoopFacts.

Lemma enumerate_object_ok fuel : forall obj obj_name depth max_depth,
  max_depth - depth <= fuel ->
  exists f, enum fuel obj obj_name depth max_depth = Some f
            /\ levels_below max_depth (forest_levels depth f).
Proof.
  induction fuel as [|fuel IH]; intros obj obj_name depth max_depth Hfuel;
    simpl; case_bool_decide as Hguard;
    try (exists []; split; [done|apply levels_below_nil]); [lia|].
  assert (Hrec : rec_ok (fun v p => enum fuel v p (depth + 1) max_depth)
                   (S depth) max_depth).
  { intros v p. replace (S depth) with (depth + 1) by lia. apply IH. lia. }
  assert (Hd : depth < max_depth) by lia.
  destruct (is_dict heap obj); [by apply enum_dict_ok|].
  destruct (is_list_or_tuple heap obj); [by apply enum_seq_ok|].
  destruct (py_dir obj); [by apply enum_attrs_ok|].
  exists []; split; [done|apply levels_below_nil].
Qed.


(** On the attribute branch a callable is inserted as a leaf. *)
Lemma enum_attr_callable_leaf rec obj obj_name attr_name n :
  enum_attr heap py_repr py_getattr rec obj obj_name attr_name = Some (Ok n) ->
  callable heap (underlying n) = true ->
  children n = [].
Proof.
  unfold enum_attr. destruct (py_getattr obj attr_name) as [av|]; [|done].
  destruct (is_simple av); [destruct (py_repr av)|]; try done.
  all: destruct (callable heap av) eqn:Hc; rewrite ?andb_false_r; simpl;
    [by intros [= <-]|].
  all: match goal with
       | |- context [ mbind _ ?k ] => destruct k; simpl; [|done]
       end; intros [= <-]; simpl; congruence.
Qed.

End WalkerFacts.


(** C7 at a concrete input: a class stored as a dict value, and the same
    class stored as a list element, are callable and are expanded: their
    nodes get the child [run]. *)
Theorem callable_in_container_is_expanded :
  (exists forest n,
      Sample.enumerate_object 6 (VObj 1) "d" 0 6 = Some forest
      /\ n ∈ forest_nodes forest
      /\ callable Sample.heap (underlying n) = true
      /\ children n <> [])
  /\ (exists forest n,
      Sample.enumerate_object 6 (VObj 7) "l" 0 6 = Some forest
      /\ n ∈ forest_nodes forest
      /\ callable Sample.heap (underlying n) = true
      /\ children n <> []).
Proof.
  split.
  - eexists _, _. split; [vm_compute; reflexivity|].
    split; [constructor 1|]. split; [reflexivity|discriminate].
  - eexists _, _. split; [vm_compute; reflexivity|].
    split; [constructor 1|]. split; [reflexivity|discriminate].
Qed.


(** ** More facts about the walker *)

Lemma Node_forall_ind (P : Node -> Prop) :
  (forall tx ty p v kids, Forall P kids -> P (mkNode tx ty p v kids)) ->
  forall n, P n.
Proof.
  intros Hstep. fix IH 1. intros [tx ty p v kids]. apply Hstep.
  induction kids as [|k kids IHk]; constructor; [apply IH|apply IHk].
Qed.

Lemma fmap_flat_map {A B C} (g : B -> C) (f : A -> list B) (l : list A) :
  g <$> flat_map f l = flat_map (fun x => g <$> f x) l.
Proof. induction l as [|x l IH]; simpl; [done|]. by rewrite fmap_app, IH. Qed.

Lemma flat_map_ext_Forall {A B} (f g : A -> list B) (l : list A) :
  Forall (fun x => f x = g x) l -> flat_map f l = flat_map g l.
Proof. induction 1 as [|x l Hx _ IH]; simpl; [done|]. by rewrite Hx, IH. Qed.

Lemma node_levels_nodes n : forall d, (node_levels d n).*2 = subtree n.
Proof.
  induction n as [tx ty p v kids IH] using Node_forall_ind. intros d.
  simpl. f_equal. rewrite fmap_flat_map. apply flat_map_ext_Forall.
  eapply Forall_impl; [exact IH|]. intros k Hk. apply Hk.
Qed.

Lemma forest_nodes_subtrees f : forest_nodes f = flat_map subtree f.
Proof.
  unfold forest_nodes, forest_levels. rewrite fmap_flat_map.
  apply flat_map_ext_Forall, Forall_forall. intros n _. apply node_levels_nodes.
Qed.

Lemma string_app_assoc (a b c : string) : (a +:+ b) +:+ c = a +:+ (b +:+ c).
Proof.
  induction a as [|x a IH]; [done|].
  change (String x ((a +:+ b) +:+ c) = String x (a +:+ (b +:+ c))). by f_equal.
Qed.

Section WalkerMore.

Variable heap : loc -> Shape.
Variable py_str : Val -> Result string.
Variable py_repr : Val -> Result string.
Variable py_dir : Val -> Result (list string).
Variable py_getattr : Val -> string -> Result Val.

Local Abbreviation enum' := (_enumerate_object heap py_str py_repr py_dir py_getattr).
Local Abbreviation enum_dict' := (enum_dict heap py_str py_repr).
Local Abbreviation enum_seq' := (enum_seq heap py_repr).
Local Abbreviation enum_attr' := (enum_attr heap py_repr py_getattr).
Local Abbreviation enum_attrs' := (enum_attrs heap py_repr py_getattr).
Local Abbreviation attr_shown' := (attr_shown py_repr py_getattr).
Local Abbreviation answered_entries' := (answered_entries py_str py_repr).

(** *** An invariant of every node of the forest *)

Section ForestInvariant.

(** [I name n]: what holds of a node [n] anywhere in the forest built
    for the object called [name]. *)
Variable I : string -> Node -> Prop.
Hypothesis I_node : forall name tx ty suffix v kids,
  kids = [] \/ is_simple_or_none v = false ->
  Forall (I (name +:+ suffix)) (flat_map subtree kids) ->
  Forall (I name) (subtree (mkNode tx ty (name +:+ suffix) v kids)).

Definition rec_keeps (rec : Val -> string -> option (list Node)) : Prop :=
  forall v p f, rec v p = Some f -> Forall (I p) (flat_map subtree f).

Lemma kids_keep rec (b : bool) v name suffix kids :
  rec_keeps rec ->
  (if b then rec v (name +:+ suffix) else Some []) = Some kids ->
  (b = true -> is_simple_or_none v = false) ->
  forall tx ty,
    Forall (I name) (subtree (mkNode tx ty (name +:+ suffix) v kids)).
Proof.
  intros Hrec Hk Hb tx ty. destruct b.
  - apply I_node; [right; by apply Hb|]. by apply (Hrec v).
  - injection Hk as <-. apply I_node; [by left|constructor].
Qed.

Lemma enum_dict_keeps rec name items f :
  rec_keeps rec ->
  enum_dict' rec name items = Some f ->
  Forall (I name) (flat_map subtree f).
Proof.
  intros Hrec. revert f. induction items as [|[key value] rest IH]; intros f; simpl.
  - intros [= <-]. simpl. constructor.
  - destruct (py_str key) as [ks|]; [destruct (py_repr key) as [kr|]|];
      try (intros [= <-]; simpl; constructor).
    destruct (if negb _ then _ else _) as [kids|] eqn:Hk; [|done]. simpl.
    destruct (enum_dict' rec name rest) as [more|]; [|done]. simpl.
    intros [= <-]. cbn [flat_map]. apply Forall_app. split; [|by apply IH].
    eapply (kids_keep rec _ value name ("[" +:+ kr +:+ "]")); [done|exact Hk|].
    intros Hb. by apply negb_true_iff in Hb.
Qed.

Lemma enum_seq_keeps rec name items : forall idx f,
  rec_keeps rec ->
  enum_seq' rec name idx items = Some f ->
  Forall (I name) (flat_map subtree f).
Proof.
  induction items as [|value rest IH]; intros idx f Hrec; simpl.
  - intros [= <-]. simpl. constructor.
  - destruct (if negb _ then _ else _) as [kids|] eqn:Hk; [|done]. simpl.
    destruct (enum_seq' rec name (S idx) rest) as [more|] eqn:Hm; [|done]. simpl.
    intros [= <-]. cbn [flat_map]. apply Forall_app. split; [|by eapply IH].
    eapply (kids_keep rec _ value name ("[" +:+ pretty idx +:+ "]")); [done|exact Hk|].
    intros Hb. by apply negb_true_iff in Hb.
Qed.

Lemma enum_attr_keeps rec obj name attr_name n :
  rec_keeps rec ->
  enum_attr' rec obj name attr_name = Some (Ok n) ->
  Forall (I name) (subtree n).
Proof.
  intros Hrec. unfold enum_attr.
  destruct (py_getattr obj attr_name) as [av|]; [|done].
  destruct (is_simple av) eqn:Hs; [destruct (py_repr av)|]; try done.
  all: match goal with
       | |- context [ mbind _ ?k ] => destruct k as [kids|] eqn:Hk; simpl; [|done]
       end; intros [= <-].
  all: eapply (kids_keep rec
         ((negb (is_simple_or_none av) && negb (callable heap av))
          && (is_dict heap av || is_list_or_tuple heap av || has_dict heap av))
         av name ("." +:+ attr_name)); [done| |].
  all: try (rewrite <- Hk; by destruct (negb _ && negb _), (_ || _ || _)).
  all: intros Hb; apply andb_prop in Hb as [Hb _];
    apply andb_prop in Hb as [Hb _]; by apply negb_true_iff in Hb.
Qed.

Lemma enum_attrs_keeps rec obj name depth names : forall f,
  rec_keeps rec ->
  enum_attrs' rec obj name depth names = Some f ->
  Forall (I name) (flat_map subtree f).
Proof.
  induction names as [|attr_name rest IH]; intros f Hrec; simpl.
  - intros [= <-]. simpl. constructor.
  - destruct (_ && _); [by apply IH|].
    destruct (enum_attr' rec obj name attr_name) as [r|] eqn:Hr; [|done]. simpl.
    destruct (enum_attrs' rec obj name depth rest) as [more|]; [|done]. simpl.
    intros [= <-]. destruct r as [n|]; [|by apply IH].
    cbn [flat_map]. apply Forall_app. split; [|by apply IH].
    by eapply enum_attr_keeps.
Qed.

Lemma enumerate_object_keeps fuel : forall obj name depth max_depth f,
  enum' fuel obj name depth max_depth = Some f ->
  Forall (I name) (flat_map subtree f).
Proof.
  induction fuel as [|fuel IH]; intros obj name depth max_depth f; simpl;
    case_bool_decide; try (intros [= <-]; simpl; constructor).
  assert (Hrec : rec_keeps (fun v p => enum' fuel v p (depth + 1) max_depth)).
  { intros v p f'. apply IH. }
  destruct (is_dict heap obj); [by apply enum_dict_keeps|].
  destruct (is_list_or_tuple heap obj); [by apply enum_seq_keeps|].
  destruct (py_dir obj); [by apply enum_attrs_keeps|].
  intros [= <-]. simpl. constructor.
Qed.

End ForestInvariant.

(** *** What the forest holds *)

(** X1: in every forest [_enumerate_object] builds, a node whose value
    is a str, int, float, bool or None has no children, on whichever
    branch it was inserted. *)
Theorem scalars_are_leaves fuel obj name depth max_depth forest :
  enum' fuel obj name depth max_depth = Some forest ->
  forall n, n ∈ forest_nodes forest ->
    is_simple_or_none (underlying n) = true -> children n = [].
Proof.
  intros Hrun n Hn. rewrite forest_nodes_subtrees in Hn.
  pose proof (enumerate_object_keeps
    (fun _ n => is_simple_or_none (underlying n) = true -> children n = [])) as Hk.
  eapply Forall_forall in Hk; [exact Hk| |exact Hrun|exact Hn].
  intros nm tx ty suffix v kids Hkids Hbelow. simpl. constructor; [|done].
  simpl. intros Hs. destruct Hkids as [->|Hv]; [done|congruence].
Qed.

(** *** Paths *)

Local Abbreviation access_step' := (access_step heap py_repr py_dir py_getattr).
Local Abbreviation stepped' := (stepped heap py_repr py_dir py_getattr).
Local Abbreviation well_stepped' := (well_stepped heap py_repr py_dir py_getattr).

Definition rec_steps (rec : Val -> string -> option (list Node)) : Prop :=
  forall v p f, rec v p = Some f -> well_stepped' v p f.

Lemma well_stepped_nil obj name : well_stepped' obj name [].
Proof. split; constructor. Qed.

Lemma well_stepped_cons obj name c rest :
  stepped' obj name c ->
  well_stepped' (underlying c) (path c) (children c) ->
  well_stepped' obj name rest ->
  well_stepped' obj name (c :: rest).
Proof.
  intros Hc [Hkids Hbelow] [Hrest Hrest']. split; [by constructor|].
  cbn [flat_map]. apply Forall_app. split; [|done].
  destruct c as [tx ty p v kids]. simpl in *. by constructor.
Qed.

Lemma kids_stepped rec (b : bool) v p kids :
  rec_steps rec ->
  (if b then rec v p else Some []) = Some kids ->
  well_stepped' v p kids.
Proof.
  intros Hrec Hk. destruct b; [by apply Hrec|].
  injection Hk as <-. apply well_stepped_nil.
Qed.

Lemma enum_dict_stepped rec obj name : forall items f,
  rec_steps rec ->
  is_dict heap obj = true ->
  (forall kv, kv ∈ items -> kv ∈ dict_items heap obj) ->
  enum_dict' rec name items = Some f ->
  well_stepped' obj name f.
Proof.
  induction items as [|[key value] rest IH]; intros f Hrec Hd Hin; simpl.
  - intros [= <-]. apply well_stepped_nil.
  - destruct (py_str key) as [ks|]; [destruct (py_repr key) as [kr|] eqn:Hkr|];
      try (intros [= <-]; apply well_stepped_nil).
    destruct (if negb _ then _ else _) as [kids|] eqn:Hk; [|done]. simpl.
    destruct (enum_dict' rec name rest) as [more|] eqn:Hm; [|done]. simpl.
    intros [= <-]. apply well_stepped_cons.
    + exists ("[" +:+ kr +:+ "]"). split; [|done]. unfold access_step.
      rewrite Hd. exists key, kr. split_and!; [|done..].
      apply Hin. by left.
    + by apply (kids_stepped rec _ _ _ _ Hrec Hk).
    + apply IH; [done..| |done]. intros kv Hkv. apply Hin. by right.
Qed.

Lemma enum_seq_stepped rec obj name : forall items idx f,
  rec_steps rec ->
  is_dict heap obj = false ->
  is_list_or_tuple heap obj = true ->
  (forall j v, items !! j = Some v -> seq_items heap obj !! (idx + j) = Some v) ->
  enum_seq' rec name idx items = Some f ->
  well_stepped' obj name f.
Proof.
  induction items as [|value rest IH]; intros idx f Hrec Hd Hl Hin; simpl.
  - intros [= <-]. apply well_stepped_nil.
  - destruct (if negb _ then _ else _) as [kids|] eqn:Hk; [|done]. simpl.
    destruct (enum_seq' rec name (S idx) rest) as [more|] eqn:Hm; [|done]. simpl.
    intros [= <-]. apply well_stepped_cons.
    + exists ("[" +:+ pretty idx +:+ "]"). split; [|done]. unfold access_step.
      rewrite Hd, Hl. exists idx. split; [|done].
      specialize (Hin 0 value eq_refl). by rewrite Nat.add_0_r in Hin.
    + by apply (kids_stepped rec _ _ _ _ Hrec Hk).
    + apply (IH (S idx)); [done..| |done]. intros j v Hj.
      specialize (Hin (S j) v Hj). by rewrite Nat.add_succ_r in Hin.
Qed.

Lemma enum_attr_stepped rec obj name names attr_name n :
  rec_steps rec ->
  is_dict heap obj = false ->
  is_list_or_tuple heap obj = false ->
  py_dir obj = Ok names ->
  attr_name ∈ names ->
  enum_attr' rec obj name attr_name = Some (Ok n) ->
  stepped' obj name n
  /\ well_stepped' (underlying n) (path n) (children n).
Proof.
  intros Hrec Hd Hl Hdir Hin. unfold enum_attr.
  destruct (py_getattr obj attr_name) as [av|] eqn:Hget; [|done].
  destruct (is_simple av) eqn:Hs; [destruct (py_repr av)|]; try done.
  all: match goal with
       | |- context [ mbind _ ?k ] => destruct k as [kids|] eqn:Hk; simpl; [|done]
       end; intros [= <-]; simpl.
  all: split;
    [exists ("." +:+ attr_name); split; [|done]; unfold access_step;
     rewrite Hd, Hl; by exists names, attr_name|].
  all: apply (kids_stepped rec
         ((negb (is_simple_or_none av) && negb (callable heap av))
          && (is_dict heap av || is_list_or_tuple heap av || has_dict heap av)));
    [done|].
  all: rewrite <- Hk; by destruct (negb _ && negb _), (_ || _ || _).
Qed.

Lemma enum_attrs_stepped rec obj name depth names : forall rest f,
  rec_steps rec ->
  is_dict heap obj = false ->
  is_list_or_tuple heap obj = false ->
  py_dir obj = Ok names ->
  (forall a, a ∈ rest -> a ∈ names) ->
  enum_attrs' rec obj name depth rest = Some f ->
  well_stepped' obj name f.
Proof.
  induction rest as [|attr_name rest IH]; intros f Hrec Hd Hl Hdir Hin; simpl.
  - intros [= <-]. apply well_stepped_nil.
  - assert (Hrest : forall a, a ∈ rest -> a ∈ names).
    { intros a Ha. apply Hin. by right. }
    destruct (_ && _); [by apply IH|].
    destruct (enum_attr' rec obj name attr_name) as [r|] eqn:Hr; [|done]. simpl.
    destruct (enum_attrs' rec obj name depth rest) as [more|] eqn:Hm; [|done].
    simpl. intros [= <-]. destruct r as [n|]; [|by apply IH].
    destruct (enum_attr_stepped rec obj name names attr_name n)
      as [Hn Hkids]; [done..|by apply Hin; left|done|].
    apply well_stepped_cons; [done..|]. by apply IH.
Qed.

Lemma enumerate_object_stepped fuel : forall obj name depth max_depth f,
  enum' fuel obj name depth max_depth = Some f ->
  well_stepped' obj name f.
Proof.
  induction fuel as [|fuel IH]; intros obj name depth max_depth f; simpl;
    case_bool_decide; try (intros [= <-]; apply well_stepped_nil).
  assert (Hrec : rec_steps (fun v p => enum' fuel v p (depth + 1) max_depth)).
  { intros v p f'. apply IH. }
  destruct (is_dict heap obj) eqn:Hd; [by apply enum_dict_stepped|].
  destruct (is_list_or_tuple heap obj) eqn:Hl.
  { by apply enum_seq_stepped. }
  destruct (py_dir obj) as [names|] eqn:Hdir.
  - by apply (enum_attrs_stepped _ obj name depth names).
  - intros [= <-]. apply well_stepped_nil.
Qed.

(** X2: the path of every node of the forest is the path of its parent
    (the name the enumeration was started with, for a root) followed by
    the one access step that leads from the parent's value to the
    node's value: [[repr(key)]] under a dict, [[i]] under a list or
    tuple, [.name] under any other object. *)
Theorem paths_follow_access_steps fuel obj name depth max_depth forest :
  enum' fuel obj name depth max_depth = Some forest ->
  (forall c, c ∈ forest ->
     exists step,
       access_step' obj (underlying c) step /\ path c = name +:+ step)
  /\ (forall n c, n ∈ forest_nodes forest -> c ∈ children n ->
      exists step,
        access_step' (underlying n) (underlying c) step
        /\ path c = path n +:+ step).
Proof.
  intros Hrun. destruct (enumerate_object_stepped _ _ _ _ _ _ Hrun) as [Htop Hall].
  split.
  - intros c Hc. rewrite Forall_forall in Htop. by apply Htop.
  - intros n c Hn Hc. rewrite forest_nodes_subtrees in Hn.
    rewrite Forall_forall in Hall. specialize (Hall n Hn).
    rewrite Forall_forall in Hall. by apply Hall.
Qed.

Lemma enum_seq_top rec name items : forall idx f,
  enum_seq' rec name idx items = Some f ->
  underlying <$> f = items
  /\ path <$> f
     = (fun i => name +:+ "[" +:+ pretty i +:+ "]") <$> seq idx (length items).
Proof.
  induction items as [|value rest IH]; intros idx f; simpl.
  - by intros [= <-].
  - destruct (if negb _ then _ else _) as [kids|]; [|done]. simpl.
    destruct (enum_seq' rec name (S idx) rest) as [more|] eqn:Hm; [|done]. simpl.
    intros [= <-]. destruct (IH _ _ Hm) as [Hu Hp].
    split; [by rewrite fmap_cons, Hu|].
    cbn [length seq]. by rewrite !fmap_cons, Hp.
Qed.

Lemma enum_dict_top rec name items : forall f,
  enum_dict' rec name items = Some f ->
  underlying <$> f = (answered_entries' items).*2.
Proof.
  induction items as [|[key value] rest IH]; intros f; simpl.
  - by intros [= <-].
  - unfold key_answers. simpl.
    destruct (py_str key) as [ks|]; [destruct (py_repr key) as [kr|]|];
      try (by intros [= <-]).
    destruct (if negb _ then _ else _) as [kids|]; [|done]. simpl.
    destruct (enum_dict' rec name rest) as [more|] eqn:Hm; [|done]. simpl.
    intros [= <-]. by rewrite !fmap_cons, (IH _ eq_refl).
Qed.

Lemma enum_attrs_top rec obj name depth names : forall f,
  enum_attrs' rec obj name depth names = Some f ->
  underlying <$> f = omap (attr_shown' obj depth) names.
Proof.
  induction names as [|attr_name rest IH]; intros f; simpl.
  - by intros [= <-].
  - unfold attr_shown at 1.
    destruct (_ && _); [apply IH|].
    destruct (enum_attr' rec obj name attr_name) as [r|] eqn:Hr; [|done]. simpl.
    destruct (enum_attrs' rec obj name depth rest) as [more|] eqn:Hm; [|done].
    simpl. intros [= <-].
    change (list_omap string Val (attr_shown' obj depth) rest)
      with (omap (attr_shown' obj depth) rest).
    rewrite <- (IH _ eq_refl). clear IH Hm.
    unfold enum_attr in Hr.
    destruct (py_getattr obj attr_name) as [av|]; [|by injection Hr as <-].
    destruct (is_simple av); [destruct (py_repr av)|];
      try (by injection Hr as <-).
    all: match type of Hr with
         | context [ mbind _ ?k ] => destruct k; simpl in Hr; [|done]
         end; by injection Hr as <-.
Qed.

Lemma list_is_not_dict obj : is_list_or_tuple heap obj = true -> is_dict heap obj = false.
Proof. destruct obj; simpl; try done. by destruct (heap l). Qed.

(** X3: a list or tuple gets exactly one node per element, in order,
    with the path [name[i]] for the element of index [i]. *)
Theorem sequence_has_one_node_per_element fuel obj name depth max_depth forest :
  depth < max_depth ->
  is_list_or_tuple heap obj = true ->
  enum' fuel obj name depth max_depth = Some forest ->
  underlying <$> forest = seq_items heap obj
  /\ path <$> forest
     = (fun i => name +:+ "[" +:+ pretty i +:+ "]")
         <$> seq 0 (length (seq_items heap obj)).
Proof.
  intros Hd Hl. destruct fuel as [|fuel]; simpl;
    rewrite bool_decide_eq_false_2 by lia; [done|].
  rewrite (list_is_not_dict _ Hl), Hl. apply enum_seq_top.
Qed.

(** X4: a dict gets one node per entry, in order, up to the first key
    whose [str] or [repr] raises; that entry and all later ones get
    none. *)
Theorem dict_stops_at_first_failing_key fuel obj name depth max_depth forest :
  depth < max_depth ->
  is_dict heap obj = true ->
  enum' fuel obj name depth max_depth = Some forest ->
  underlying <$> forest = (answered_entries' (dict_items heap obj)).*2.
Proof.
  intros Hd Hdict. destruct fuel as [|fuel]; simpl;
    rewrite bool_decide_eq_false_2 by lia; [done|].
  rewrite Hdict. apply enum_dict_top.
Qed.

(** X5: any other object gets one node per name of [dir], in order,
    leaving out the names that start with an underscore when
    [depth > 0], the names whose [getattr] raises and the scalar
    attributes whose [repr] raises; the other names are not affected by
    the ones left out.  When [dir] itself raises there are no nodes. *)
Theorem attributes_skip_private_and_failing
    fuel obj name depth max_depth forest :
  depth < max_depth ->
  is_dict heap obj = false ->
  is_list_or_tuple heap obj = false ->
  enum' fuel obj name depth max_depth = Some forest ->
  underlying <$> forest
  = match py_dir obj with
    | Ok names => omap (attr_shown' obj depth) names
    | Raise _ => []
    end.
Proof.
  intros Hd Hdict Hl. destruct fuel as [|fuel]; simpl;
    rewrite bool_decide_eq_false_2 by lia; [done|].
  rewrite Hdict, Hl. destruct (py_dir obj); [apply enum_attrs_top|].
  by intros [= <-].
Qed.

End WalkerMore.

(** ** The full tree, the members pane and the filter *)

Lemma forest_levels_shift k f : forall d,
  forest_levels (k + d) f = (fun dn => (k + dn.1, dn.2)) <$> forest_levels d f.
Proof.
  assert (Hn : forall n d,
    node_levels (k + d) n = (fun dn => (k + dn.1, dn.2)) <$> node_levels d n).
  { induction n as [tx ty p v kids IH] using Node_forall_ind. intros d.
    simpl. f_equal. rewrite fmap_flat_map. apply flat_map_ext_Forall.
    eapply Forall_impl; [exact IH|]. intros n Hk.
    replace (S (k + d)) with (k + S d) by lia. apply Hk. }
  intros d. unfold forest_levels. rewrite fmap_flat_map.
  apply flat_map_ext_Forall, Forall_forall. intros n _. apply Hn.
Qed.

Lemma levels_below_shift k m f :
  levels_below m (forest_levels 0 f) ->
  levels_below (k + m) (forest_levels k f).
Proof.
  intros H. replace k with (k + 0) at 2 by lia. rewrite forest_levels_shift.
  unfold levels_below in *. rewrite Forall_fmap.
  eapply Forall_impl; [exact H|]. intros [d n]. simpl. lia.
Qed.

Section BrowserFacts.

Variable heap : loc -> Shape.
Variable py_str : Val -> Result string.
Variable py_repr : Val -> Result string.
Variable py_dir : Val -> Result (list string).
Variable py_getattr : Val -> string -> Result Val.
Variable py_signature : Val -> Result string.

Local Abbreviation loaded_nodes' :=
  (loaded_nodes heap py_str py_repr py_dir py_getattr).
Local Abbreviation populate_full_object_tree' :=
  (populate_full_object_tree heap py_str py_repr py_dir py_getattr).
Local Abbreviation populate_members' :=
  (populate_members heap py_repr py_dir py_getattr py_signature).
Local Abbreviation add_member' :=
  (add_member heap py_repr py_getattr py_signature).
Local Abbreviation listed_in' := (listed_in heap py_getattr).

Lemma loaded_nodes_ok loaded :
  exists objs,
    loaded_nodes' loaded = Some objs
    /\ levels_below 8 (forest_levels 1 objs)
    /\ length objs = length loaded
    /\ (forall name obj, (name, obj) ∈ loaded ->
        exists n, n ∈ objs
          /\ path n = "self.loaded_objects['" +:+ name +:+ "']"
          /\ underlying n = obj).
Proof.
  induction loaded as [|[name obj] rest IH]; cbn [loaded_nodes].
  - exists []. split_and!; [done|constructor|done|]. intros ?? H. by apply elem_of_nil in H.
  - destruct (enumerate_object_ok heap py_str py_repr py_dir py_getattr 6 obj
                ("self.loaded_objects['" +:+ name +:+ "']") 0 6 ltac:(lia))
      as (kids & -> & Hkids).
    destruct IH as (more & -> & Hmore & Hlen & Hin). simpl.
    eexists. split_and!; [done| | |].
    + apply levels_below_cons; [lia| |done].
      apply (levels_below_shift 2 6 _ Hkids).
    + simpl. by rewrite Hlen.
    + intros nm o Hel. apply elem_of_cons in Hel as [[= -> ->]|Hel].
      * eexists. split; [by left|done].
      * destruct (Hin nm o Hel) as (n & Hn & Hp & Hu).
        exists n. split; [by right|done].
Qed.


(** *** The members pane *)

Lemma fold_add_member obj names : forall ms,
  let ms' := fold_left (fun ms a => add_member' obj a ms) names ms in
  member_text <$> props ms'
    = (member_text <$> props ms) ++ filter (listed_in' InProps obj) names
  /\ length (methods ms')
    = length (methods ms) + length (filter (listed_in' InMethods obj) names)
  /\ length (special ms')
    = length (special ms) + length (filter (listed_in' InSpecial obj) names).
Proof.
  induction names as [|a rest IH]; intros ms; simpl.
  - rewrite app_nil_r. split_and!; simpl; try done; try lia.
  - destruct (IH (add_member' obj a ms)) as (Hp & Hm & Hs).
    simpl in Hp, Hm, Hs. rewrite Hp, Hm, Hs. clear IH Hp Hm Hs.
    rewrite !filter_cons. unfold listed_in, member_section, add_member.
    destruct (py_getattr obj a) as [v|]; simpl.
    + destruct (callable heap v), (is_magic a); simpl;
        rewrite ?fmap_app, ?length_app; simpl;
        repeat case_bool_decide; try done; simplify_eq;
        rewrite <- ?app_assoc; simpl. all: split_and!; try done; try lia.
    + repeat case_bool_decide; try done; split_and!; try done; lia.
Qed.

(** X7: [populate_members] lists every name of [dir(obj)] whose
    [getattr] answers in exactly one of the three sections: under
    "Special/Magic" when the name starts and ends with two underscores,
    otherwise under "Methods" when the value is callable and under
    "Properties" when it is not; the properties appear under their own
    names, in the order of [dir].  Names whose [getattr] raises are left
    out and do not disturb the others. *)
Theorem members_are_partitioned obj names :
  py_dir obj = Ok names ->
  let ms := populate_members' obj in
  member_text <$> props ms = filter (listed_in' InProps obj) names
  /\ length (methods ms) = length (filter (listed_in' InMethods obj) names)
  /\ length (special ms) = length (filter (listed_in' InSpecial obj) names)
  /\ length (props ms) + length (methods ms) + length (special ms)
     = length (filter (fun a => bool_decide
                 (is_Some (member_section heap py_getattr obj a))) names).
Proof.
  intros Hdir ms. unfold ms, populate_members. rewrite Hdir.
  destruct (fold_add_member obj names (mkMembers [] [] [])) as (Hp & Hm & Hs).
  simpl in Hp, Hm, Hs. split_and!; [done..|].
  rewrite <- (length_fmap member_text), Hp, Hm, Hs. clear.
  induction names as [|a rest IH]; [done|].
  rewrite !filter_cons. unfold listed_in in *.
  destruct (member_section heap py_getattr obj a) as [[]|];
    repeat case_bool_decide; try done; simplify_eq;
    try (exfalso; match goal with
                  | H : ~ is_Some (Some _) |- _ => apply H; eauto
                  | H : is_Some None |- _ => by destruct H
                  end);
    simpl; rewrite <- IH; lia.
Qed.

End BrowserFacts.

(** *** The filter *)

Section FilterFacts.

Variable py_lower : string -> string.

Local Abbreviation search_tree' := (search_tree py_lower).
Local Abbreviation filter_object_tree' := (filter_object_tree py_lower).
Local Abbreviation matches' := (matches py_lower).
Local Abbreviation matches_below' := (matches_below py_lower).

Lemma existsb_flat_map {A B} (p : B -> bool) (f : A -> list B) (l : list A) :
  existsb p (flat_map f l) = existsb (fun x => existsb p (f x)) l.
Proof. induction l as [|x l IH]; simpl; [done|]. by rewrite existsb_app, IH. Qed.

Lemma search_tree_spec query item :
  (search_tree' query item).1 = matches_below' query item
  /\ forall m, m ∈ (search_tree' query item).2
       <-> m ∈ subtree item /\ matches_below' query m = true.
Proof.
  induction item as [tx ty p v kids IH] using Node_forall_ind.
  set (item := mkNode tx ty p v kids).
  assert (Hchild : existsb fst (map (search_tree' query) kids)
                   = existsb (matches' query) (flat_map subtree kids)).
  { rewrite existsb_flat_map. clear item. induction IH as [|k kids [Hk _] _ IHk];
      simpl; [done|]. by rewrite Hk, IHk. }
  assert (Hopened : forall m,
            m ∈ concat (map snd (map (search_tree' query) kids))
            <-> m ∈ flat_map subtree kids /\ matches_below' query m = true).
  { intros m. clear item Hchild. induction IH as [|k kids [_ Hk] _ IHk]; simpl.
    - split; [by intros H%elem_of_nil|by intros [H%elem_of_nil _]].
    - rewrite !elem_of_app, Hk, IHk. tauto. }
  assert (Hfst : (search_tree' query item).1 = matches_below' query item).
  { unfold matches_below. simpl. rewrite <- Hchild.
    unfold matches at 1. simpl. by destruct (_ || _). }
  split; [exact Hfst|]. intros m.
  assert (Hsnd : (search_tree' query item).2
                 = concat (map snd (map (search_tree' query) kids))
                   ++ (if matches_below' query item then [item] else [])).
  { rewrite <- Hfst. simpl. destruct (_ || _); simpl; [done|by rewrite app_nil_r]. }
  rewrite Hsnd, elem_of_app, Hopened.
  change (subtree item) with (item :: flat_map subtree kids).
  rewrite elem_of_cons. destruct (matches_below' query item) eqn:Hm.
  - rewrite list_elem_of_singleton. split.
    + intros [[? ?]| ->]; [tauto|]. split; [by left|done].
    + intros [[->|?] ?]; [by right|tauto].
  - split.
    + intros [[? ?]|H%elem_of_nil]; [tauto|done].
    + intros [[->|?] ?]; [congruence|tauto].
Qed.

(** X8: with a search text that is not empty after lowering,
    [filter_object_tree] opens exactly the items that contain the query
    in their own lowered text or have such an item somewhere below
    them: every ancestor of a match is opened, and nothing else.  With
    an empty search text the tree is rebuilt instead. *)
Theorem filter_opens_matches_and_their_ancestors search_text tree :
  match filter_object_tree' search_text tree with
  | Rebuilt => py_lower search_text = ""
  | Opened items =>
      py_lower search_text <> ""
      /\ forall m, m ∈ items
           <-> m ∈ forest_nodes tree
               /\ matches_below' (py_lower search_text) m = true
  end.
Proof.
  unfold filter_object_tree. case_bool_decide as Hq; [done|]. split; [done|].
  intros m. rewrite forest_nodes_subtrees.
  induction tree as [|item rest IH]; simpl.
  - split; [by intros H%elem_of_nil|by intros [H%elem_of_nil _]].
  - rewrite !elem_of_app, IH.
    rewrite (proj2 (search_tree_spec (py_lower search_text) item) m). tauto.
Qed.

End FilterFacts.

(** ** Facts about the persistence codec *)

Section CodecFacts.

Variable heap : loc -> Shape.
Variable py_bool : Val -> bool.
Variable py_str : Val -> Result string.
Variable pickle_dumps : Protocol -> Val -> Result (list byte).
Variable pickle_loads : list byte -> Outcome Val.
Variable json_dumps : Val -> Result string.
Variable json_loads : string -> Result Val.
Variable utf8_encode : string -> Result (list byte).
Variable utf8_decode : list byte -> Result string.

Local Abbreviation sniff' := (sniff pickle_loads json_loads utf8_decode).
Local Abbreviation try_pickle' := (try_pickle pickle_loads).
Local Abbreviation try_json' := (try_json json_loads utf8_decode).
Local Abbreviation try_text' := (try_text utf8_decode).
Local Abbreviation load_binary_from' :=
  (load_binary_from pickle_loads json_loads utf8_decode).
Local Abbreviation load_object_binary' :=
  (load_object_binary pickle_loads json_loads utf8_decode).
Local Abbreviation load_python_from' := (load_python_from pickle_loads).
Local Abbreviation load_object_python' := (load_object_python pickle_loads).
Local Abbreviation save_python_to' := (save_python_to pickle_dumps).
Local Abbreviation save_object_python' :=
  (save_object_python heap py_bool pickle_dumps).
Local Abbreviation convert_binary' :=
  (convert_binary heap py_str pickle_dumps json_dumps utf8_encode).
Local Abbreviation save_binary_to' :=
  (save_binary_to heap py_str pickle_dumps json_dumps utf8_encode).

(** *** The sniffing chain *)

Lemma failed_attempts label e s :
  attempts (failed label e s)
  = attempts s ++ [label +:+ ": " +:+ exn_name (exn_class e)].
Proof. reflexivity. Qed.

(** No step forgets an attempt already recorded. *)
Lemma try_json_keeps data s a : a ∈ attempts s -> a ∈ attempts (try_json' data s).
Proof.
  intros Ha. unfold try_json. destruct (is_none _); [|done].
  destruct (_ ≫= _); simpl; [done|]. apply elem_of_app. by left.
Qed.

Lemma try_text_keeps data s a : a ∈ attempts s -> a ∈ attempts (try_text' data s).
Proof.
  intros Ha. unfold try_text. destruct (is_none _); [|done].
  destruct (utf8_decode data); simpl; [done|]. apply elem_of_app. by left.
Qed.

Lemma keep_raw_attempts data s : attempts (keep_raw data s) = attempts s.
Proof. unfold keep_raw. by destruct (is_none _). Qed.

Lemma keep_raw_not_none data s : loaded_obj (keep_raw data s) <> VNone.
Proof.
  unfold keep_raw. destruct (is_none (loaded_obj s)) eqn:E; [done|].
  by destruct (loaded_obj s).
Qed.

(** A step that finds the object already set leaves everything alone. *)
Lemma keep_raw_set data s : is_none (loaded_obj s) = false -> keep_raw data s = s.
Proof. unfold keep_raw. by intros ->. Qed.

Lemma try_text_set data s : is_none (loaded_obj s) = false -> try_text' data s = s.
Proof. unfold try_text. by intros ->. Qed.

Lemma try_json_set data s : is_none (loaded_obj s) = false -> try_json' data s = s.
Proof. unfold try_json. by intros ->. Qed.

Lemma known_pickle : "Python pickle" ∈ known_interpretations.
Proof. by apply (bool_decide_unpack _). Qed.
Lemma known_json : "JSON" ∈ known_interpretations.
Proof. by apply (bool_decide_unpack _). Qed.
Lemma known_text : "UTF-8 text" ∈ known_interpretations.
Proof. by apply (bool_decide_unpack _). Qed.
Lemma known_raw : "raw bytes" ∈ known_interpretations.
Proof. by apply (bool_decide_unpack _). Qed.

Lemma try_pickle_settled data s s1 :
  settled s -> try_pickle' data s = Returns s1 -> settled s1.
Proof.
  unfold try_pickle, settled. destruct (pickle_loads data); simpl; [| |done].
  - intros _ [= <-] _. apply known_pickle.
  - intros Hs [= <-]. exact Hs.
Qed.

(** The pickle step leaves the chain only when unpickling raises an
    exception outside [Exception]. *)
Lemma try_pickle_returns data s :
  (forall b, pickle_loads data <> Exits b) ->
  exists s1, try_pickle' data s = Returns s1.
Proof.
  intros Hno. unfold try_pickle.
  destruct (pickle_loads data) as [v|e|b]; [by eexists..|by destruct (Hno b)].
Qed.

Lemma sniff_returns data s1 :
  try_pickle' data (mkSniff VNone "unknown" []) = Returns s1 ->
  sniff' data = Returns (keep_raw data (try_text' data (try_json' data s1))).
Proof. unfold sniff. by intros ->. Qed.

Lemma try_json_settled data s : settled s -> settled (try_json' data s).
Proof.
  unfold try_json, settled. destruct (is_none (loaded_obj s)) eqn:E; [|by rewrite E].
  destruct (_ ≫= _); simpl; [|by rewrite E].
  intros _ _. apply known_json.
Qed.

Lemma try_text_settled data s : settled s -> settled (try_text' data s).
Proof.
  unfold try_text, settled. destruct (is_none (loaded_obj s)) eqn:E; [|by rewrite E].
  destruct (utf8_decode data); simpl; [|by rewrite E].
  intros _ _. apply known_text.
Qed.

Lemma keep_raw_known data s :
  settled s -> interpretation (keep_raw data s) ∈ known_interpretations.
Proof.
  unfold keep_raw, settled. destruct (is_none (loaded_obj s)); [|by intros H; apply H].
  intros _. apply known_raw.
Qed.

Lemma keep_raw_unmodified data s :
  settled s -> interpretation s <> "raw bytes" ->
  interpretation (keep_raw data s) = "raw bytes" ->
  loaded_obj (keep_raw data s) = VBytes data.
Proof. unfold keep_raw. by destruct (is_none (loaded_obj s)). Qed.

Lemma step_interpretation_not_raw data s1 :
  try_pickle' data (mkSniff VNone "unknown" []) = Returns s1 ->
  interpretation (try_text' data (try_json' data s1)) <> "raw bytes".
Proof.
  unfold try_text, try_json, try_pickle.
  destruct (pickle_loads data); intros [= <-];
  repeat (simpl; match goal with
          | |- context [ match ?x with Ok _ => _ | Raise _ => _ end ] =>
              destruct x
          | |- context [ if is_none ?x then _ else _ ] =>
              destruct (is_none x)
          end); simpl; discriminate.
Qed.


(** The first step wins when it yields an object other than [None]. *)
Lemma sniff_pickle_wins data v :
  pickle_loads data = Returns v -> v <> VNone ->
  sniff' data = Returns (mkSniff v "Python pickle" []).
Proof.
  intros Hv Hne. unfold sniff, try_pickle. rewrite Hv.
  assert (is_none v = false) by (by destruct v).
  by rewrite try_json_set, try_text_set, keep_raw_set.
Qed.

(** When pickle yields [None] the chain goes on to the later steps. *)
Lemma sniff_pickled_none_falls_through data :
  pickle_loads data = Returns VNone ->
  exists s, sniff' data = Returns s /\ interpretation s <> "Python pickle".
Proof.
  intros Hv. unfold sniff, keep_raw, try_text, try_json, try_pickle.
  rewrite Hv. eexists. split; [reflexivity|].
  repeat (simpl; match goal with
          | |- context [ match ?x with Ok _ => _ | Raise _ => _ end ] =>
              destruct x
          | |- context [ if is_none ?x then _ else _ ] =>
              destruct (is_none x)
          end); simpl; discriminate.
Qed.

(** *** The guards in front of the chain *)

Lemma getsize_zero fs f data :
  files fs !! f = Some data -> (getsize fs f =? 0)%Z = true -> data = [].
Proof.
  unfold getsize. intros -> H. simpl in H. apply Z.eqb_eq in H.
  destruct data; [done|]. simpl in H. lia.
Qed.

Lemma say_loaded_objects e st : loaded_objects (say e st) = loaded_objects st.
Proof. reflexivity. Qed.


(** C8, as the code has it: on both load paths the size of an existing,
    readable file is compared with the constant 100 * 1024 * 1024; above
    it the confirmation box is shown and a refusal ends the load, at or
    below it the load goes on unasked; and no setting has any part in
    it. *)
Theorem large_file_limit_is_fixed (u : User) (st : State) :
  askopenfilename u <> "" ->
  path_exists (fs st) (askopenfilename u) = true ->
  access_read (fs st) (askopenfilename u) = true ->
  let f := askopenfilename u in
  let size := getsize (fs st) f in
  let asked title := say (AskYesNo title (askyesno u title)) st in
  load_object_python' u st =
    (if (size >? 100 * 1024 * 1024)%Z
     then if askyesno u "Large File Warning"
          then load_python_from' u f (asked "Large File Warning")
          else asked "Large File Warning"
     else load_python_from' u f st)
  /\ (size <> 0%Z ->
      load_object_binary' u st =
        (if (size >? 100 * 1024 * 1024)%Z
         then if askyesno u "Large File"
              then load_binary_from' u f (asked "Large File")
              else asked "Large File"
         else load_binary_from' u f st))
  /\ (forall s,
      load_object_python' u (set_settings s st)
        = set_settings s (load_object_python' u st)
      /\ load_object_binary' u (set_settings s st)
        = set_settings s (load_object_binary' u st)).
Proof.
  intros Hname Hex Hread f size asked. subst f size asked. split_and!.
  - unfold load_object_python. rewrite bool_decide_eq_false_2 by done.
    rewrite Hex, Hread. simpl.
    change large_file_limit with (100 * 1024 * 1024)%Z.
    destruct (_ >? _)%Z; [|done]. by destruct (askyesno u _).
  - intros Hsize. unfold load_object_binary.
    rewrite bool_decide_eq_false_2 by done.
    rewrite Hex, Hread. simpl.
    apply Z.eqb_neq in Hsize as ->.
    change large_file_limit with (100 * 1024 * 1024)%Z.
    destruct (_ >? _)%Z; [|done]. by destruct (askyesno u _).
  - intros s. split.
    + unfold load_object_python, load_python_from. simpl.
      repeat (case_match; simpl; try done).
    + unfold load_object_binary, load_binary_from. simpl.
      repeat (case_match; simpl; try done).
Qed.

(** *** Saving *)

Lemma save_python_outer_reports e st :
  fs (save_python_outer e st) = fs st
  /\ exists title, events (save_python_outer e st) = events st ++ [ShowError title].
Proof. unfold save_python_outer. destruct (caught_by _ e); simpl; eauto. Qed.

Lemma save_binary_outer_reports e st :
  fs (save_binary_outer e st) = fs st
  /\ exists title, events (save_binary_outer e st) = events st ++ [ShowError title].
Proof. unfold save_binary_outer. destruct (caught_by _ e); simpl; eauto. Qed.

Lemma write_file_ok fs f data :
  f ∉ unwritable fs ->
  write_file fs f data = Ok (mkFS (<[f := data]> (files fs)) (unreadable fs) (unwritable fs)).
Proof. intros H. unfold write_file. by rewrite bool_decide_eq_false_2. Qed.

Lemma save_python_to_failure f st e :
  pickle_dumps HighestProtocol (current_object st) = Raise e ->
  fs (save_python_to' f st) = fs st
  /\ exists title, events (save_python_to' f st) = events st ++ [ShowError title].
Proof.
  intros He. unfold save_python_to. rewrite He.
  destruct (caught_by _ e); [simpl; eauto|]. apply save_python_outer_reports.
Qed.



End CodecFacts.

(** *** Save and load through the native format *)

Section SaveThenLoad.

Variable pickle_dumps : Protocol -> Val -> Result (list byte).
Variable pickle_loads : list byte -> Outcome Val.

Lemma save_python_to_ok filename st buffer :
  pickle_dumps HighestProtocol (current_object st) = Ok buffer ->
  filename ∉ unwritable (fs st) ->
  save_python_to pickle_dumps filename st
  = say (ShowInfo "✓ Object Saved Successfully" [])
        (set_fs (mkFS (<[filename := buffer]> (files (fs st)))
                      (unreadable (fs st)) (unwritable (fs st))) st).
Proof. intros Hd Hw. unfold save_python_to. by rewrite Hd, write_file_ok. Qed.


End SaveThenLoad.

(** *** The codec on the concrete runtime *)



(** C2 at a concrete input: the buffers [pickle.dumps(None)] and
    [pickle.dumps(None, 0)] are valid pickle output, the pickle step
    decodes them, and the chain goes on and reports "raw bytes" for the
    one and "UTF-8 text" for the other. *)
Theorem pickled_none_is_not_reported_as_pickle :
  Sample.pickle_dumps DefaultProtocol VNone = Ok Sample.pickled_none
  /\ Sample.pickle_loads Sample.pickled_none = Returns VNone
  /\ Sample.chain Sample.pickled_none
     = Returns (mkSniff (VBytes Sample.pickled_none) "raw bytes"
                  ["JSON: UnicodeDecodeError"; "UTF-8: UnicodeDecodeError"])
  /\ Sample.pickle_loads [x4e; x2e] = Returns VNone
  /\ Sample.chain [x4e; x2e]
     = Returns (mkSniff (VStr "N.") "UTF-8 text" ["JSON: JSONDecodeError"]).
Proof. by vm_compute. Qed.




(** C8 as stated fails: with the threshold set to 0 MB a 5-byte file
    exceeds it, and both load paths load it without showing their
    confirmation box (which this user would have answered with no). *)
Lemma configured_threshold_counterexample :
  let u := Sample.opener "o.pkl" "o" in
  let st := Sample.idle Sample.warn_always
              (Sample.fs_with "o.pkl" Sample.pickled_five) in
  ~ spec_requires_confirmation
      (load_object_python Sample.pickle_loads) "Large File Warning" u st
  /\ ~ spec_requires_confirmation
        (load_object_binary Sample.pickle_loads Sample.json_loads
           Sample.utf8_decode) "Large File" u st
  /\ loaded_objects (load_object_python Sample.pickle_loads u st) !! "o"
     = Some (VInt 5).
Proof.
  intros u st. split_and!.
  - intros Hspec. destruct Hspec as [answer Hin]; [reflexivity|].
    assert (Hev : events (load_object_python Sample.pickle_loads u st)
                  = [ShowInfo "✓ Object Loaded" []]) by (by vm_compute).
    rewrite Hev in Hin. apply list_elem_of_singleton in Hin. discriminate.
  - intros Hspec. destruct Hspec as [answer Hin]; [reflexivity|].
    assert (Hev : events (load_object_binary Sample.pickle_loads
                            Sample.json_loads Sample.utf8_decode u st)
                  = [ShowInfo "✓ Binary Loaded"
                       ["Interpretation: Python pickle"]]) by (by vm_compute).
    rewrite Hev in Hin. apply list_elem_of_singleton in Hin. discriminate.
  - by vm_compute.
Qed.

Lemma large_file_limit_is_fixed_witness :
  let u := Sample.opener "o.pkl" "o" in
  let st := Sample.idle Sample.warn_always
              (Sample.fs_with "o.pkl" Sample.pickled_five) in
  load_object_python Sample.pickle_loads u st
  = load_python_from Sample.pickle_loads u "o.pkl" st
  /\ load_object_python Sample.pickle_loads u (set_settings (Settings.JObj []) st)
     = set_settings (Settings.JObj []) (load_object_python Sample.pickle_loads u st).
Proof.
  intros u st.
  destruct (large_file_limit_is_fixed Sample.pickle_loads Sample.json_loads
              Sample.utf8_decode u st) as (Hpy & _ & Hset).
  - discriminate.
  - reflexivity.
  - reflexivity.
  - split; [exact Hpy|]. apply (Hset (Settings.JObj [])).
Defined.



(** ** More facts about the persistence codec *)

Section CodecMore.

Variable heap : loc -> Shape.
Variable py_bool : Val -> bool.
Variable py_str : Val -> Result string.
Variable pickle_dumps : Protocol -> Val -> Result (list byte).
Variable pickle_loads : list byte -> Outcome Val.
Variable json_dumps : Val -> Result string.
Variable json_loads : string -> Result Val.
Variable utf8_encode : string -> Result (list byte).
Variable utf8_decode : list byte -> Result string.

Local Abbreviation sniff' := (sniff pickle_loads json_loads utf8_decode).
Local Abbreviation load_binary_from' :=
  (load_binary_from pickle_loads json_loads utf8_decode).
Local Abbreviation load_object_binary' :=
  (load_object_binary pickle_loads json_loads utf8_decode).
Local Abbreviation load_python_from' := (load_python_from pickle_loads).
Local Abbreviation load_object_python' := (load_object_python pickle_loads).
Local Abbreviation save_python_to' := (save_python_to pickle_dumps).
Local Abbreviation save_object_python' :=
  (save_object_python heap py_bool pickle_dumps).
Local Abbreviation convert_binary' :=
  (convert_binary heap py_str pickle_dumps json_dumps utf8_encode).
Local Abbreviation save_binary_to' :=
  (save_binary_to heap py_str pickle_dumps json_dumps utf8_encode).
Local Abbreviation save_object_binary' :=
  (save_object_binary heap py_bool py_str pickle_dumps json_dumps utf8_encode).
Local Abbreviation truthy' := (truthy heap py_bool).

Lemma not_none_is_none v : v <> VNone -> is_none v = false.
Proof. by destruct v. Qed.

Lemma sniff_cases (data : list byte) :
  (forall v, pickle_loads data = Returns v -> v <> VNone ->
     sniff' data = Returns (mkSniff v "Python pickle" []))
  /\ (forall e v,
      pickle_loads data = Raises e ->
      utf8_decode data ≫= json_loads = Ok v -> v <> VNone ->
      sniff' data
      = Returns (mkSniff v "JSON" ["Pickle: " +:+ exn_name (exn_class e)]))
  /\ (forall e e' s,
      pickle_loads data = Raises e ->
      utf8_decode data ≫= json_loads = Raise e' ->
      utf8_decode data = Ok s ->
      sniff' data
      = Returns (mkSniff (VStr s) "UTF-8 text"
                   ["Pickle: " +:+ exn_name (exn_class e);
                    "JSON: " +:+ exn_name (exn_class e')]))
  /\ (forall e e' e'',
      pickle_loads data = Raises e ->
      utf8_decode data ≫= json_loads = Raise e' ->
      utf8_decode data = Raise e'' ->
      sniff' data
      = Returns (mkSniff (VBytes data) "raw bytes"
                   ["Pickle: " +:+ exn_name (exn_class e);
                    "JSON: " +:+ exn_name (exn_class e');
                    "UTF-8: " +:+ exn_name (exn_class e'')])).
Proof.
  unfold sniff, keep_raw, try_text, try_json, try_pickle. split_and!.
  - intros v -> Hv%not_none_is_none.
    repeat (simpl; rewrite Hv). done.
  - intros e v -> Hj Hv%not_none_is_none.
    repeat (simpl; first [rewrite Hj|rewrite Hv]). done.
  - intros e e' s -> Hj Hs.
    repeat (simpl; first [rewrite Hj|rewrite Hs]). done.
  - intros e e' e'' -> Hj Hs.
    repeat (simpl; first [rewrite Hj|rewrite Hs]). done.
Qed.


(** *** What loading and saving leave alone *)

Lemma load_python_from_store u f st :
  loaded_objects (load_python_from' u f st) = loaded_objects st
  \/ exists name v,
       name_given (ask_object_name u) = Some name
       /\ (is_Some (loaded_objects st !! name) ->
           askyesno u "Name Already Exists" = true)
       /\ loaded_objects (load_python_from' u f st)
          = <[name := v]> (loaded_objects st).
Proof.
  unfold load_python_from.
  destruct (unpickle_file _ _ _) as [v| |]; [|by left..].
  destruct (name_given _) as [name|] eqn:Hn; [|by left].
  case_bool_decide as Hdup; simpl.
  - destruct (askyesno u _) eqn:Ha; simpl; [|by left].
    right. by exists name, v.
  - right. exists name, v. by split_and!.
Qed.

Lemma load_binary_from_store u f st :
  loaded_objects (load_binary_from' u f st) = loaded_objects st
  \/ exists name v,
       name_given (ask_object_name u) = Some name
       /\ (is_Some (loaded_objects st !! name) ->
           askyesno u "Duplicate Name" = true)
       /\ loaded_objects (load_binary_from' u f st)
          = <[name := v]> (loaded_objects st).
Proof.
  unfold load_binary_from. destruct (read_file _ _) as [data|]; [|by left].
  destruct (sniff' data) as [s| |]; [|by left..].
  destruct (name_given _) as [name|] eqn:Hn; [|by left].
  case_bool_decide as Hdup; simpl.
  - destruct (askyesno u _) eqn:Ha; simpl; [|by left].
    right. by eexists name, _.
  - right. eexists name, _. by split_and!.
Qed.

Lemma load_object_python_store u st :
  loaded_objects (load_object_python' u st) = loaded_objects st
  \/ exists name v,
       name_given (ask_object_name u) = Some name
       /\ (is_Some (loaded_objects st !! name) ->
           askyesno u "Name Already Exists" = true)
       /\ loaded_objects (load_object_python' u st)
          = <[name := v]> (loaded_objects st).
Proof.
  unfold load_object_python.
  repeat (case_match; simpl; try (by left));
    match goal with
    | |- context [ load_python_from' u ?f ?s ] =>
        destruct (load_python_from_store u f s) as [->|Hstore]; [by left|by right]
    end.
Qed.

Lemma load_object_binary_store u st :
  loaded_objects (load_object_binary' u st) = loaded_objects st
  \/ exists name v,
       name_given (ask_object_name u) = Some name
       /\ (is_Some (loaded_objects st !! name) ->
           askyesno u "Duplicate Name" = true)
       /\ loaded_objects (load_object_binary' u st)
          = <[name := v]> (loaded_objects st).
Proof.
  unfold load_object_binary.
  repeat (case_match; simpl; try (by left));
    match goal with
    | |- context [ load_binary_from' u ?f ?s ] =>
        destruct (load_binary_from_store u f s) as [->|Hstore]; [by left|by right]
    end.
Qed.

(** X10: a load changes at most one entry of the store, the one under
    the name typed into the name dialog; and an entry that exists is
    replaced only after "yes" to the overwrite question.  This holds on
    every path of both loaders, failed and cancelled loads included. *)
Theorem load_touches_only_the_named_entry (u : User) (st : State) :
  (forall k, name_given (ask_object_name u) <> Some k ->
     loaded_objects (load_object_python' u st) !! k = loaded_objects st !! k
     /\ loaded_objects (load_object_binary' u st) !! k = loaded_objects st !! k)
  /\ (forall k v, loaded_objects st !! k = Some v ->
      (askyesno u "Name Already Exists" = false ->
       loaded_objects (load_object_python' u st) !! k = Some v)
      /\ (askyesno u "Duplicate Name" = false ->
       loaded_objects (load_object_binary' u st) !! k = Some v)).
Proof.
  split.
  - intros k Hk. split.
    + destruct (load_object_python_store u st) as [->|(name & v & Hn & _ & ->)];
        [done|]. apply lookup_insert_ne. congruence.
    + destruct (load_object_binary_store u st) as [->|(name & v & Hn & _ & ->)];
        [done|]. apply lookup_insert_ne. congruence.
  - intros k v Hv. split; intros Hno.
    + destruct (load_object_python_store u st) as [->|(name & w & Hn & Hyes & ->)];
        [done|]. destruct (decide (name = k)) as [->|Hne].
      * rewrite Hyes in Hno by eauto. done.
      * by rewrite lookup_insert_ne.
    + destruct (load_object_binary_store u st) as [->|(name & w & Hn & Hyes & ->)];
        [done|]. destruct (decide (name = k)) as [->|Hne].
      * rewrite Hyes in Hno by eauto. done.
      * by rewrite lookup_insert_ne.
Qed.

(** X11: the savers never touch the store of loaded objects, and none
    of the four methods assigns the selected object or the settings.
    Nothing is said here about the file system during a load:
    unpickling runs the callables the file names, and what they do to
    the files is not the program's doing. *)
Theorem loads_and_saves_leave_selection_and_settings (u : User) (st : State) :
  (loaded_objects (save_object_python' u st) = loaded_objects st
   /\ loaded_objects (save_object_binary' u st) = loaded_objects st)
  /\ (forall op, op ∈ [load_object_python' u; load_object_binary' u;
                        save_object_python' u; save_object_binary' u] ->
      current_object (op st) = current_object st
      /\ settings (op st) = settings st).
Proof.
  split_and!.
  - unfold save_object_python, save_python_to, save_python_outer.
    repeat (case_match; simpl; try done).
  - unfold save_object_binary, save_binary_to, save_binary_outer.
    repeat (case_match; simpl; try done).
  - intros op Hop.
    repeat (apply elem_of_cons in Hop as [->|Hop]); [..|by apply elem_of_nil in Hop].
    + unfold load_object_python, load_python_from.
      repeat (case_match; simpl; try done).
    + unfold load_object_binary, load_binary_from.
      repeat (case_match; simpl; try done).
    + unfold save_object_python, save_python_to, save_python_outer.
      repeat (case_match; simpl; try done).
    + unfold save_object_binary, save_binary_to, save_binary_outer.
      repeat (case_match; simpl; try done).
Qed.

Lemma write_file_files fs f data fs' :
  write_file fs f data = Ok fs' ->
  files fs' = <[f := data]> (files fs)
  /\ unreadable fs' = unreadable fs /\ unwritable fs' = unwritable fs.
Proof. unfold write_file. case_bool_decide; [done|]. by intros [= <-]. Qed.

Lemma save_python_to_files f st :
  fs (save_python_to' f st) = fs st
  \/ exists data,
       pickle_dumps HighestProtocol (current_object st) = Ok data
       /\ fs (save_python_to' f st)
          = mkFS (<[f := data]> (files (fs st)))
                 (unreadable (fs st)) (unwritable (fs st)).
Proof.
  unfold save_python_to, save_python_outer.
  destruct (pickle_dumps _ _) as [data|e]; [|left; by repeat case_match].
  unfold write_file. case_bool_decide; simpl; [left; by repeat case_match|].
  right. by exists data.
Qed.

Lemma save_binary_to_files f st :
  fs (save_binary_to' f st) = fs st
  \/ exists data m,
       convert_binary' (current_object st) = Converted data m
       /\ fs (save_binary_to' f st)
          = mkFS (<[f := data]> (files (fs st)))
                 (unreadable (fs st)) (unwritable (fs st)).
Proof.
  unfold save_binary_to, save_binary_outer.
  destruct (convert_binary' _) as [data m|title|e]; [|by left|left; by repeat case_match].
  unfold write_file. case_bool_decide; simpl; [left; by repeat case_match|].
  right. by exists data, m.
Qed.


(** X13: what the [try] block of [save_object_binary] wrote to the
    chosen file, the [try] block of [load_object_binary] reads from it
    through the chain: the stored object is the chain's reading of the
    converted bytes, not the object saved.  In particular a bytes object whose
    bytes are valid UTF-8 (and neither a pickle nor JSON) comes back as
    the str of that text. *)
Theorem binary_save_then_load_goes_through_the_chain
    (u : User) (filename name : string) (st : State) (data : list byte)
    (m : string) :
  convert_binary' (current_object st) = Converted data m ->
  filename ∉ unwritable (fs st) ->
  filename ∉ unreadable (fs st) ->
  name_given (ask_object_name u) = Some name ->
  loaded_objects st !! name = None ->
  let loaded := load_binary_from' u filename (save_binary_to' filename st) in
  (forall s, sniff' data = Returns s ->
     loaded_objects loaded !! name = Some (loaded_obj s))
  /\ (forall b, sniff' data = Exits b -> loaded_objects loaded !! name = None)
  /\ (forall e e' s,
      current_object st = VBytes data ->
      pickle_loads data = Raises e ->
      utf8_decode data ≫= json_loads = Raise e' ->
      utf8_decode data = Ok s ->
      loaded_objects loaded !! name = Some (VStr s)).
Proof.
  intros Hc Hw Hr Hname Hfree loaded.
  assert (Hread : read_file (fs (save_binary_to' filename st)) filename = Ok data).
  { unfold save_binary_to. rewrite Hc. rewrite write_file_ok by done.
    unfold read_file. simpl. rewrite lookup_insert_eq.
    by rewrite (bool_decide_eq_false_2 (filename ∈ _)) by done. }
  assert (Hstore : loaded_objects (save_binary_to' filename st) = loaded_objects st).
  { unfold save_binary_to. rewrite Hc. by rewrite write_file_ok by done. }
  assert (Hl : forall s, sniff' data = Returns s ->
            loaded_objects loaded !! name = Some (loaded_obj s)).
  { intros s Hs. unfold loaded, load_binary_from.
    rewrite Hread, Hs, Hname, Hstore, Hfree. simpl. apply lookup_insert_eq. }
  split_and!; [exact Hl| |].
  - intros b Hb. unfold loaded, load_binary_from. rewrite Hread, Hb. simpl.
    by rewrite Hstore.
  - intros e e' s _ Hp Hj Hs.
    destruct (sniff_cases data) as (_ & _ & Htext & _).
    by rewrite (Hl _ (Htext e e' s Hp Hj Hs)).
Qed.

End CodecMore.

(** ** Facts about the settings merge *)

Module SettingsFacts.
Import Settings.

Lemma assoc_set_eq kvs key v : assoc (assoc_set kvs key v) key = Some v.
Proof.
  induction kvs as [|[k v0] rest IH]; simpl.
  - by rewrite String.eqb_refl.
  - destruct (String.eqb k key) eqn:E; simpl; by rewrite E.
Qed.

Lemma assoc_set_ne kvs key v key' :
  key <> key' -> assoc (assoc_set kvs key v) key' = assoc kvs key'.
Proof.
  intros Hne. induction kvs as [|[k v0] rest IH]; simpl.
  - by apply String.eqb_neq in Hne as ->.
  - destruct (String.eqb k key) eqn:E; simpl; [|by rewrite IH].
    apply String.eqb_eq in E as ->. by apply String.eqb_neq in Hne as ->.
Qed.

Lemma or_else_None_r a : or_else a None = a.
Proof. by destruct a. Qed.

Lemma merge_keys_spec category values : forall cats kvs,
  assoc cats category = Some (JObj kvs) ->
  exists cats' kvs',
    merge_keys (JObj cats) category values = Ok (JObj cats')
    /\ assoc cats' category = Some (JObj kvs')
    /\ (forall c, c <> category -> assoc cats' c = assoc cats c)
    /\ (forall k, assoc kvs' k = or_else (assoc kvs k) (assoc values k)).
Proof.
  induction values as [|[key d] rest IH]; intros cats kvs Hc; simpl.
  - exists cats, kvs. split_and!; [done..|]. intros k. by rewrite or_else_None_r.
  - rewrite Hc. simpl. unfold mbind, Result_bind; simpl.
    destruct (assoc kvs key) as [v|] eqn:Hk; simpl.
    + try (rewrite bool_decide_eq_true_2 by eauto); simpl.
      destruct (IH cats kvs Hc) as (cats' & kvs' & -> & H1 & H2 & H3).
      exists cats', kvs'. split_and!; [done..|].
      intros k. rewrite H3. destruct (assoc kvs k) eqn:E; [done|]. simpl.
      destruct (String.eqb key k) eqn:Ek; [|done].
      apply String.eqb_eq in Ek as ->. congruence.
    + try (rewrite bool_decide_eq_false_2 by (by intros [? ?])); simpl.
      destruct (IH (assoc_set cats category (JObj (assoc_set kvs key d)))
                   (assoc_set kvs key d)) as (cats' & kvs' & -> & H1 & H2 & H3).
      { apply assoc_set_eq. }
      exists cats', kvs'. split_and!; [done..| |].
      * intros c Hne. rewrite H2 by done. by apply assoc_set_ne.
      * intros k. rewrite H3. destruct (String.eqb key k) eqn:Ek.
        -- apply String.eqb_eq in Ek as ->. rewrite assoc_set_eq, Hk. done.
        -- apply String.eqb_neq in Ek. rewrite assoc_set_ne by done.
           by destruct (assoc kvs k).
Qed.

#[local] Arguments lookup2 : simpl never.

Lemma merge_defaults_spec defaults : forall cats,
  (forall c values, (c, values) ∈ defaults -> cat_ok cats c) ->
  exists cats',
    merge_defaults (JObj cats) defaults = Ok (JObj cats')
    /\ (forall c k, lookup2 (JObj cats') c k
                    = or_else (lookup2 (JObj cats) c k) (first_default defaults c k))
    /\ (forall c, c ∉ defaults.*1 -> assoc cats' c = assoc cats c).
Proof.
  induction defaults as [|[c0 values] rest IH]; intros cats Hok; simpl.
  - exists cats. split_and!; [done| |done]. intros c k. by rewrite or_else_None_r.
  - unfold mbind, Result_bind; simpl.
    pose proof (Hok c0 values ltac:(left)) as H0. unfold cat_ok in H0.
    destruct (assoc cats c0) as [inner|] eqn:Hc0.
    + destruct inner as [| | | | | |kvs]; try done.
      try (rewrite bool_decide_eq_true_2 by eauto); simpl.
      destruct (merge_keys_spec c0 values cats kvs Hc0)
        as (cats1 & kvs1 & -> & H1 & H2 & H3).
      destruct (IH cats1) as (cats' & -> & H4 & H5).
      { intros c vs Hin. unfold cat_ok. destruct (decide (c = c0)) as [->|Hne].
        - by rewrite H1.
        - rewrite H2 by done. apply (Hok c vs). by right. }
      exists cats'. split_and!; [done| |].
      * intros c k. rewrite H4. unfold lookup2. destruct (String.eqb c0 c) eqn:E.
        -- apply String.eqb_eq in E as <-. rewrite H1, Hc0, H3.
           destruct (assoc kvs k); [done|]. simpl. by destruct (assoc values k).
        -- apply String.eqb_neq in E. rewrite H2 by done. done.
      * intros c Hc. apply not_elem_of_cons in Hc as [Hne Hc]. rewrite H5 by done. by apply H2.
    + try (rewrite bool_decide_eq_false_2 by (by intros [? ?])); simpl.
      destruct (IH (assoc_set cats c0 (JObj values))) as (cats' & -> & H4 & H5).
      { intros c vs Hin. unfold cat_ok. destruct (decide (c0 = c)) as [->|Hne].
        - by rewrite assoc_set_eq.
        - rewrite assoc_set_ne by done. apply (Hok c vs). by right. }
      exists cats'. split_and!; [done| |].
      * intros c k. rewrite H4. unfold lookup2. destruct (String.eqb c0 c) eqn:E.
        -- apply String.eqb_eq in E as <-. rewrite assoc_set_eq, Hc0. simpl.
           by destruct (assoc values k).
        -- apply String.eqb_neq in E. by rewrite assoc_set_ne.
      * intros c Hc. apply not_elem_of_cons in Hc as [Hne Hc]. rewrite H5 by done. by apply assoc_set_ne.
Qed.

Lemma well_formed_cat_ok cats :
  well_formed (JObj cats) = true ->
  forall c values, (c, values) ∈ default_settings -> cat_ok cats c.
Proof.
  intros Hwf c values Hin. unfold well_formed in Hwf.
  rewrite forallb_forall in Hwf. apply list_elem_of_In, Hwf in Hin.
  unfold cat_ok. simpl in Hin. by repeat case_match.
Qed.

Lemma first_default_listed category values key default_val :
  (category, values) ∈ default_settings -> (key, default_val) ∈ values ->
  first_default default_settings category key = Some default_val.
Proof.
  intros Hin Hk. unfold default_settings in Hin.
  repeat (apply elem_of_cons in Hin as [[= -> ->]|Hin]);
    try (by apply elem_of_nil in Hin);
    repeat (apply elem_of_cons in Hk as [[= -> ->]|Hk]);
    try (by apply elem_of_nil in Hk); reflexivity.
Qed.

(** C9: after [load_settings] has merged a loaded settings document with
    the defaults, every default (category, key) is present in the
    effective document, with the loaded value where the loaded document
    has one and the default value otherwise; every (category, key) of the
    loaded document keeps its value; and a category the defaults do not
    know is kept as it was.  No error box is shown. *)
Theorem load_settings_merges_defaults (loaded : JVal) :
  well_formed loaded = true ->
  let effective := (load_settings (Some (Ok loaded))).1 in
  (forall category values key default_val,
      (category, values) ∈ default_settings -> (key, default_val) ∈ values ->
      lookup2 effective category key
      = Some (default default_val (lookup2 loaded category key)))
  /\ (forall category key v,
        lookup2 loaded category key = Some v ->
        lookup2 effective category key = Some v)
  /\ (forall category,
        category ∉ default_settings.*1 ->
        lookup1 effective category = lookup1 loaded category)
  /\ (load_settings (Some (Ok loaded))).2 = false.
Proof.
  intros Hwf. destruct loaded as [| | | | | |cats]; try done.
  destruct (merge_defaults_spec default_settings cats (well_formed_cat_ok cats Hwf))
    as (cats' & Hm & Hlook & Hother).
  unfold load_settings. cbn [mbind Result_bind]. rewrite Hm. cbn [fst snd].
  split_and!; [| | |done].
  - intros category values key default_val Hin Hk. rewrite Hlook.
    rewrite (first_default_listed _ _ _ _ Hin Hk).
    by destruct (lookup2 (JObj cats) category key).
  - intros category key v Hv. by rewrite Hlook, Hv.
  - intros category Hc. simpl. by apply Hother.
Qed.

Lemma load_settings_merges_defaults_witness :
  lookup2 (load_settings (Some (Ok custom_document))).1 "colors" "background"
    = Some (JStr "white")
  /\ lookup2 (load_settings (Some (Ok custom_document))).1 "browser" "max_depth"
    = Some (JInt 9)
  /\ lookup1 (load_settings (Some (Ok custom_document))).1 "plugins"
    = Some (JObj [("enabled", JBool true)]).
Proof.
  destruct (load_settings_merges_defaults custom_document eq_refl)
    as (Hdef & Hkept & Hother & _).
  split_and!.
  - eapply (Hdef "colors" _ "background" (JStr "white")).
    + do 5 constructor 2. constructor 1.
    + constructor 1.
  - by apply Hkept.
  - rewrite Hother; [done|]. by apply (bool_decide_unpack _).
Defined.

End SettingsFacts.

(** ** More facts about the settings *)

Module SettingsWindowFacts.
Import Settings SettingsFacts SettingsWindow.

#[local] Arguments lookup2 : simpl never.

Lemma lookup2_obj cats category key :
  lookup2 (JObj cats) category key
  = match assoc cats category with
    | Some (JObj kvs) => assoc kvs key
    | _ => None
    end.
Proof. reflexivity. Qed.

Lemma lookup2_Some_inv cats category key v :
  lookup2 (JObj cats) category key = Some v ->
  exists kvs, assoc cats category = Some (JObj kvs) /\ assoc kvs key = Some v.
Proof.
  rewrite lookup2_obj. destruct (assoc cats category) as [[]|]; try done. eauto.
Qed.

Lemma assoc_Some_key kvs key v : assoc kvs key = Some v -> key ∈ kvs.*1.
Proof.
  induction kvs as [|[k v0] rest IH]; simpl; [done|].
  destruct (String.eqb k key) eqn:E.
  - apply String.eqb_eq in E as ->. intros _. by left.
  - intros H. right. by apply IH.
Qed.

(** *** [update_setting] *)

Lemma update_setting_spec category key value w w' :
  update_setting category key value w = Ok w' ->
  (forall c k,
     lookup2 (settings w') c k
     = if bool_decide (c = category /\ k = key)
       then (match lookup2 (settings w) c k with
             | Some _ => Some value
             | None => None
             end)
       else lookup2 (settings w) c k)
  /\ (forall c, c <> category ->
      lookup1 (settings w') c = lookup1 (settings w) c)
  /\ settings_modified w'
     = (settings_modified w
        || bool_decide (is_Some (lookup2 (settings w) category key))).
Proof.
  assert (Hsame : forall c k,
    lookup2 (settings w) category key = None ->
    lookup2 (settings w) c k
    = if bool_decide (c = category /\ k = key)
      then (match lookup2 (settings w) c k with
            | Some _ => Some value
            | None => None
            end)
      else lookup2 (settings w) c k).
  { intros c k Hnone. case_bool_decide as Hck; [|done].
    destruct Hck as [-> ->]. by rewrite Hnone. }
  assert (Hkeep : lookup2 (settings w) category key = None ->
    Ok w = Ok w' ->
    (forall c k,
       lookup2 (settings w') c k
       = if bool_decide (c = category /\ k = key)
         then (match lookup2 (settings w) c k with
               | Some _ => Some value
               | None => None
               end)
         else lookup2 (settings w) c k)
    /\ (forall c, c <> category ->
        lookup1 (settings w') c = lookup1 (settings w) c)
    /\ settings_modified w'
       = (settings_modified w
          || bool_decide (is_Some (lookup2 (settings w) category key)))).
  { intros Hnone [= <-]. split_and!; [by intros; apply Hsame|done|].
    rewrite Hnone. rewrite bool_decide_eq_false_2 by (by intros [? ?]).
    by rewrite orb_false_r. }
  unfold update_setting. destruct w as [s modified]. simpl in *.
  destruct s as [| | | |str|xs|cats]; simpl; try done.
  - (* a str *)
    destruct (substring_of category str); simpl; [done|]. by apply Hkeep.
  - (* a list *)
    destruct (existsb _ xs); simpl; [done|]. by apply Hkeep.
  - (* a dict *)
    destruct (assoc cats category) as [inner|] eqn:Hc; simpl.
    2: { apply Hkeep. by rewrite lookup2_obj, Hc. }
    destruct inner as [| | | |str|xs|kvs]; simpl; try done.
    + destruct (substring_of key str); simpl; [done|].
      apply Hkeep. by rewrite lookup2_obj, Hc.
    + destruct (existsb _ xs); simpl; [done|].
      apply Hkeep. by rewrite lookup2_obj, Hc.
    + destruct (assoc kvs key) as [old|] eqn:Hk; simpl.
      2: { apply Hkeep. by rewrite lookup2_obj, Hc. }
      intros [= <-]. simpl. split_and!.
      * intros c k. rewrite !lookup2_obj.
        destruct (decide (c = category)) as [->|Hne].
        -- rewrite assoc_set_eq, Hc.
           destruct (decide (k = key)) as [->|Hnk].
           ++ rewrite bool_decide_eq_true_2 by done.
              by rewrite assoc_set_eq, Hk.
           ++ rewrite bool_decide_eq_false_2 by (by intros [? ?]).
              by rewrite assoc_set_ne.
        -- rewrite bool_decide_eq_false_2 by (by intros [? ?]).
           by rewrite assoc_set_ne.
      * intros c Hne. by rewrite assoc_set_ne.
      * rewrite lookup2_obj, Hc, Hk.
        rewrite bool_decide_eq_true_2 by eauto. by rewrite orb_true_r.
Qed.

(** X14: [update_setting] changes the value of a setting that exists and
    nothing else: it never adds a key or a category, it leaves every
    other setting as it was, and it marks the settings as modified
    exactly when the setting existed.  For a settings document whose
    category is a dict (or absent) it does not raise. *)
Theorem update_setting_changes_one_existing_value category key value w :
  (forall cats, settings w = JObj cats -> cat_ok cats category ->
     exists w', update_setting category key value w = Ok w')
  /\ (forall w', update_setting category key value w = Ok w' ->
      (forall c k,
         lookup2 (settings w') c k
         = if bool_decide (c = category /\ k = key)
           then (match lookup2 (settings w) c k with
                 | Some _ => Some value
                 | None => None
                 end)
           else lookup2 (settings w) c k)
      /\ (forall c, c <> category ->
          lookup1 (settings w') c = lookup1 (settings w) c)
      /\ settings_modified w'
         = (settings_modified w
            || bool_decide (is_Some (lookup2 (settings w) category key)))).
Proof.
  split; [|apply update_setting_spec].
  intros cats Hs Hok. unfold update_setting, cat_ok in *. rewrite Hs. simpl.
  destruct (assoc cats category) as [inner|]; simpl; [|by eexists].
  destruct inner as [| | | | | |kvs]; try done. simpl.
  destruct (assoc kvs key); simpl; by eexists.
Qed.


(** *** [load_settings] once more *)

Lemma default_category_has_key category values :
  (category, values) ∈ default_settings -> exists key d, (key, d) ∈ values.
Proof.
  intros Hin. unfold default_settings in Hin.
  repeat (apply elem_of_cons in Hin as [[= -> ->]|Hin]);
    try (by apply elem_of_nil in Hin); eexists _, _; by left.
Qed.

Lemma merge_keys_present category values : forall cats kvs,
  assoc cats category = Some (JObj kvs) ->
  (forall key d, (key, d) ∈ values -> is_Some (assoc kvs key)) ->
  merge_keys (JObj cats) category values = Ok (JObj cats).
Proof.
  induction values as [|[key d] rest IH]; intros cats kvs Hc Hall; [done|].
  cbn [merge_keys]. unfold mbind, Result_bind. cbn [py_getitem]. rewrite Hc.
  cbn [py_in]. destruct (Hall key d ltac:(by left)) as [v Hv].
  rewrite bool_decide_eq_true_2 by eauto. cbn [negb].
  apply (IH cats kvs Hc). intros k d' Hin. apply (Hall k d'). by right.
Qed.

Lemma merge_defaults_present defaults cats :
  (forall c values, (c, values) ∈ defaults ->
     exists kvs, assoc cats c = Some (JObj kvs)
       /\ forall key d, (key, d) ∈ values -> is_Some (assoc kvs key)) ->
  merge_defaults (JObj cats) defaults = Ok (JObj cats).
Proof.
  induction defaults as [|[c0 values] rest IH]; intros Hall; [done|].
  cbn [merge_defaults]. unfold mbind, Result_bind. cbn [py_in].
  destruct (Hall c0 values ltac:(by left)) as (kvs & Hc & Hk).
  rewrite bool_decide_eq_true_2 by eauto. cbn [negb].
  rewrite (merge_keys_present _ _ _ _ Hc Hk).
  apply IH. intros c vs Hin. apply (Hall c vs). by right.
Qed.

Lemma effective_has_defaults cats cats' :
  (forall c k, lookup2 (JObj cats') c k
               = or_else (lookup2 (JObj cats) c k)
                         (first_default default_settings c k)) ->
  forall c values, (c, values) ∈ default_settings ->
    exists kvs, assoc cats' c = Some (JObj kvs)
      /\ forall key d, (key, d) ∈ values -> is_Some (assoc kvs key).
Proof.
  intros Hlook c values Hin.
  assert (Hsome : forall key d, (key, d) ∈ values ->
            is_Some (lookup2 (JObj cats') c key)).
  { intros key d Hk. rewrite Hlook, (first_default_listed _ _ _ _ Hin Hk).
    destruct (lookup2 (JObj cats) c key); simpl; eauto. }
  destruct (default_category_has_key c values Hin) as (k0 & d0 & Hk0).
  destruct (Hsome k0 d0 Hk0) as [v0 Hv0].
  apply lookup2_Some_inv in Hv0 as (kvs & Hc & _).
  exists kvs. split; [done|]. intros key d Hk.
  destruct (Hsome key d Hk) as [v Hv].
  apply lookup2_Some_inv in Hv as (kvs' & Hc' & Hv). rewrite Hc in Hc'.
  injection Hc' as ->. eauto.
Qed.

Lemma load_settings_ok loaded effective :
  merge_defaults loaded default_settings = Ok effective ->
  load_settings (Some (Ok loaded)) = (effective, false).
Proof. intros H. unfold load_settings, mbind, Result_bind. by rewrite H. Qed.

Lemma load_settings_raise loaded e :
  merge_defaults loaded default_settings = Raise e ->
  load_settings (Some (Ok loaded)) = (default_document, true).
Proof. intros H. unfold load_settings, mbind, Result_bind. by rewrite H. Qed.

(** X15: the effective document is a fixed point of the merge: loading
    it again (as [load_settings] does after [save_settings] wrote it)
    gives the same document, in the same order, without an error. *)
Theorem load_settings_is_idempotent (loaded : JVal) :
  well_formed loaded = true ->
  let effective := (load_settings (Some (Ok loaded))).1 in
  load_settings (Some (Ok effective)) = (effective, false).
Proof.
  intros Hwf. destruct loaded as [| | | | | |cats]; try done.
  destruct (merge_defaults_spec default_settings cats (well_formed_cat_ok cats Hwf))
    as (cats' & Hm & Hlook & _).
  cbv zeta. rewrite (load_settings_ok _ _ Hm). cbn [fst].
  apply load_settings_ok.
  apply merge_defaults_present, (effective_has_defaults _ _ Hlook).
Qed.

Lemma merge_keys_frame category values : forall loaded loaded',
  merge_keys loaded category values = Ok loaded' ->
  forall cats, loaded = JObj cats ->
  exists cats', loaded' = JObj cats'
    /\ forall c, c <> category -> assoc cats' c = assoc cats c.
Proof.
  induction values as [|[key d] rest IH]; intros loaded loaded'.
  - intros [= <-] cats ->. by exists cats.
  - cbn [merge_keys]. intros Hrun cats ->. simpl in Hrun.
    destruct (assoc cats category) as [inner|]; [|done]. simpl in Hrun.
    unfold mbind, Result_bind in Hrun. simpl in Hrun.
    destruct (py_in key inner) as [present|]; [|done].
    destruct present; simpl in Hrun.
    + by apply (IH _ _ Hrun).
    + destruct (py_setitem inner key d) as [inner'|]; [|done].
      destruct (IH _ _ Hrun _ eq_refl) as (cats' & -> & Hframe).
      exists cats'. split; [done|]. intros c Hne.
      rewrite Hframe by done. by apply assoc_set_ne.
Qed.

Lemma merge_defaults_raises_on_scalar bad v defaults : forall cats,
  (exists values key d, (bad, values) ∈ defaults /\ (key, d) ∈ values) ->
  assoc cats bad = Some v -> is_scalar v = true ->
  exists e, merge_defaults (JObj cats) defaults = Raise e.
Proof.
  induction defaults as [|[c0 values0] rest IH]; intros cats Hbad Hv Hs.
  { destruct Hbad as (? & ? & ? & H & _). by apply elem_of_nil in H. }
  cbn [merge_defaults]. unfold mbind, Result_bind. cbn [py_in].
  destruct (decide (c0 = bad)) as [->|Hne].
  - rewrite bool_decide_eq_true_2 by eauto. cbn [negb].
    destruct values0 as [|[k0 d0] rest0].
    + cbn [merge_keys]. apply IH; [|done..].
      destruct Hbad as (values & key & d & Hin & Hk).
      apply elem_of_cons in Hin as [[= ->]|Hin]; [by apply elem_of_nil in Hk|].
      by exists values, key, d.
    + cbn [merge_keys]. unfold mbind, Result_bind. cbn [py_getitem].
      rewrite Hv. destruct v; try done; simpl; by eexists.
  - assert (Hrest : exists values key d, (bad, values) ∈ rest /\ (key, d) ∈ values).
    { destruct Hbad as (values & key & d & Hin & Hk).
      apply elem_of_cons in Hin as [[= -> _]|Hin]; [done|].
      by exists values, key, d. }
    destruct (assoc cats c0) as [inner|] eqn:Hc0.
    + rewrite bool_decide_eq_true_2 by eauto. cbn [negb].
      destruct (merge_keys (JObj cats) c0 values0) as [loaded'|e] eqn:Hmk;
        [|by eexists].
      destruct (merge_keys_frame _ _ _ _ Hmk cats eq_refl) as (cats' & -> & Hframe).
      apply IH; [done| |done]. rewrite Hframe by done. exact Hv.
    + rewrite bool_decide_eq_false_2 by (by intros [? ?]). cbn [negb py_setitem].
      apply IH; [done| |done]. rewrite assoc_set_ne by done. exact Hv.
Qed.

(** X16: one malformed entry costs the whole document.  When the loaded
    value is not a dict, or when one of the default categories holds
    [None], a bool or a number instead of a dict, [load_settings] shows
    the "Settings Error" box and returns the plain defaults: the valid
    custom values elsewhere in the loaded document are dropped. *)
Theorem load_settings_drops_a_malformed_document (loaded : JVal) :
  (match loaded with JObj _ => False | _ => True end
   \/ exists category values v,
        (category, values) ∈ default_settings
        /\ lookup1 loaded category = Some v /\ is_scalar v = true) ->
  load_settings (Some (Ok loaded)) = (default_document, true).
Proof.
  intros [Hshape|(category & values & v & Hin & Hv & Hs)].
  - unfold load_settings. cbn [mbind Result_bind].
    unfold default_settings at 1. cbn [merge_defaults].
    destruct loaded as [| | | |str|xs|cats]; try done; simpl.
    + unfold mbind, Result_bind; simpl. by destruct (substring_of _ _).
    + unfold mbind, Result_bind; simpl. by destruct (existsb _ _).
  - destruct loaded as [| | | | | |cats]; try done. simpl in Hv.
    destruct (default_category_has_key _ _ Hin) as (key & d & Hk).
    destruct (merge_defaults_raises_on_scalar category v default_settings cats)
      as [e He]; [by exists values, key, d|done..|].
    unfold load_settings. cbn [mbind Result_bind]. by rewrite He.
Qed.

(** *** The browser's reading of the settings *)

Lemma editor_command_absent cats kvs :
  assoc cats "advanced" = Some (JObj kvs) ->
  assoc kvs "editor_command" = None ->
  BrowserSettings.editor_command (JObj cats) = Ok (JStr "notepad {filename}").
Proof.
  intros Ha Hk. unfold BrowserSettings.editor_command, BrowserSettings.py_get.
  rewrite Ha. simpl. by rewrite Hk.
Qed.

(** X17: the browser looks for its editor command under
    [advanced.editor_command], the settings window keeps it under
    [editor.editor_command].  So with no [settings.json], or one that
    cannot be parsed, the command is [notepad {filename}]; and for every
    document the settings window produces from a well-formed file
    without an [advanced.editor_command], the browser's command stays
    [notepad {filename}] whatever [editor.editor_command] is set to. *)
Theorem browser_ignores_the_editor_category (loaded : JVal) :
  (forall e,
      BrowserSettings.editor_command (BrowserSettings.load_settings None)
        = Ok (JStr "notepad {filename}")
      /\ BrowserSettings.editor_command
           (BrowserSettings.load_settings (Some (Raise e)))
        = Ok (JStr "notepad {filename}"))
  /\ (well_formed loaded = true ->
      lookup2 loaded "advanced" "editor_command" = None ->
      let saved := (load_settings (Some (Ok loaded))).1 in
      BrowserSettings.editor_command
        (BrowserSettings.load_settings (Some (Ok saved)))
        = Ok (JStr "notepad {filename}")
      /\ forall value w',
           update_setting "editor" "editor_command" value (mkWindow saved false)
             = Ok w' ->
           lookup2 (settings w') "editor" "editor_command" = Some value
           /\ BrowserSettings.editor_command
                (BrowserSettings.load_settings (Some (Ok (settings w'))))
              = Ok (JStr "notepad {filename}")).
Proof.
  split; [done|]. intros Hwf Hnone.
  destruct loaded as [| | | | | |cats]; try done.
  destruct (merge_defaults_spec default_settings cats (well_formed_cat_ok cats Hwf))
    as (cats' & Hm & Hlook & _).
  unfold load_settings. cbn [mbind Result_bind]. rewrite Hm. cbn [fst].
  assert (Hadv : exists kvs, assoc cats' "advanced" = Some (JObj kvs)
                   /\ assoc kvs "editor_command" = None).
  { pose proof (Hlook "advanced" "debug_mode") as Hd.
    destruct (lookup2 (JObj cats') "advanced" "debug_mode") as [v|] eqn:Hv.
    2: { by destruct (lookup2 (JObj cats) "advanced" "debug_mode"). }
    apply lookup2_Some_inv in Hv as (kvs & Hc & _). exists kvs. split; [done|].
    pose proof (Hlook "advanced" "editor_command") as He.
    rewrite Hnone, lookup2_obj, Hc in He. exact He. }
  destruct Hadv as (kvs & Ha & Hk). simpl. split.
  - by apply (editor_command_absent cats' kvs).
  - intros value w' Hup.
    destruct (update_setting_spec _ _ _ _ _ Hup) as (Hval & Hother & _).
    simpl in Hval, Hother. split.
    + rewrite Hval. rewrite bool_decide_eq_true_2 by done.
      pose proof (Hlook "editor" "editor_command") as He.
      destruct (lookup2 (JObj cats') "editor" "editor_command"); [done|].
      by destruct (lookup2 (JObj cats) "editor" "editor_command").
    + specialize (Hother "advanced" ltac:(done)).
      rewrite Ha in Hother. clear Hval Hup.
      destruct w' as [[| | | | | |cats''] m']; simpl in Hother; try done.
      by apply (editor_command_absent cats'' kvs).
Qed.

(** *** The settings tree *)

Lemma category_is_default c name :
  (c, name) ∈ categories -> exists values, (c, values) ∈ default_settings.
Proof.
  intros Hin. unfold categories in Hin.
  repeat (apply elem_of_cons in Hin as [[= -> ->]|Hin]);
    try (by apply elem_of_nil in Hin);
    eexists; unfold default_settings;
    repeat first [by constructor 1 | constructor 2].
Qed.

Lemma keys_of_elem cats c kvs key :
  assoc cats c = Some (JObj kvs) ->
  key ∈ keys_of (JObj cats) c <-> is_Some (lookup2 (JObj cats) c key).
Proof.
  intros Hc. unfold keys_of. rewrite lookup2_obj. simpl. rewrite Hc. split.
  - intros Hin. apply list_elem_of_fmap in Hin as ([k v] & -> & Hin). simpl.
    clear Hc. induction kvs as [|[k0 v0] rest IH]; [by apply elem_of_nil in Hin|].
    simpl. destruct (String.eqb k0 k) eqn:E; [by eexists|].
    apply elem_of_cons in Hin as [[= -> ->]|Hin]; [|by apply IH].
    by rewrite String.eqb_refl in E.
  - intros [v Hv]. by apply (assoc_Some_key _ _ v).
Qed.

Section TreeFacts.

Variable py_title : string -> string.
Variable py_lower : string -> string.
Variable py_str : JVal -> string.

Local Abbreviation setting_item' := (setting_item py_title).
Local Abbreviation populate_tree' := (populate_tree py_title).
Local Abbreviation filter_tree' := (filter_tree py_title py_lower py_str).
Local Abbreviation key_matches' := (key_matches py_lower py_str).
Local Abbreviation import_settings' := (import_settings py_title).

Lemma category_children_ok cats c :
  cat_ok cats c ->
  category_children py_title (JObj cats) c
  = Ok (map (setting_item' c) (keys_of (JObj cats) c)).
Proof.
  unfold cat_ok, category_children, keys_of, mbind, Result_bind. simpl.
  by destruct (assoc cats c) as [[]|].
Qed.

Lemma populate_categories_ok cats l :
  (forall cn, cn ∈ l -> cat_ok cats cn.1) ->
  populate_categories py_title (JObj cats) l
  = Ok (map (fun cn => (category_item cn,
                        map (setting_item' cn.1) (keys_of (JObj cats) cn.1))) l).
Proof.
  induction l as [|[c name] rest IH]; intros Hok; [done|].
  cbn [populate_categories]. unfold mbind, Result_bind.
  rewrite (category_children_ok cats c) by (apply (Hok (c, name)); by left).
  rewrite IH by (intros cn Hin; apply Hok; by right). done.
Qed.

(** On a dict, [populate_tree] can only fail at [.keys()]. *)
Lemma populate_categories_raises cats l e :
  populate_categories py_title (JObj cats) l = Raise e ->
  exn_class e = AttributeError.
Proof.
  induction l as [|[c name] rest IH]; [done|].
  cbn [populate_categories]. unfold mbind, Result_bind.
  destruct (populate_categories py_title (JObj cats) rest) as [more|e'].
  - unfold category_children, mbind, Result_bind. simpl.
    destruct (assoc cats c) as [[]|]; simpl; try done; by intros [= <-].
  - unfold category_children, mbind, Result_bind. simpl.
    destruct (assoc cats c) as [[]|]; simpl; try done; try (by intros [= <-]).
    all: intros [= <-]; by apply IH.
Qed.


Lemma matching_keys_ok query cats c kvs : forall keys,
  assoc cats c = Some (JObj kvs) ->
  (forall key, key ∈ keys -> is_Some (assoc kvs key)) ->
  matching_keys py_lower py_str query (JObj kvs) keys
  = Ok (filter (fun key => key_matches' query (JObj cats) c key) keys).
Proof.
  intros keys Hc. induction keys as [|key rest IH]; intros Hall; [done|].
  cbn [matching_keys]. unfold mbind, Result_bind.
  rewrite IH by (intros k Hin; apply Hall; by right).
  destruct (Hall key ltac:(by left)) as [v Hv].
  assert (Hkm : key_matches' query (JObj cats) c key
                = substring_of query (py_lower key)
                  || substring_of query (py_lower (py_str v))).
  { unfold key_matches. by rewrite lookup2_obj, Hc, Hv. }
  unfold setting_matches, mbind, Result_bind. cbn [py_getitem]. rewrite Hv.
  destruct (substring_of query (py_lower key)); simpl in Hkm.
  - rewrite filter_cons_True; [done|]. by rewrite Hkm.
  - destruct (substring_of query (py_lower (py_str v))).
    + rewrite filter_cons_True; [done|]. by rewrite Hkm.
    + rewrite filter_cons_False; [done|]. rewrite Hkm. by intros [].
Qed.

Lemma matching_items_ok query cats c :
  cat_ok cats c ->
  matching_items py_lower py_str query (JObj cats) c
  = Ok (filter (fun key => key_matches' query (JObj cats) c key)
               (keys_of (JObj cats) c)).
Proof.
  unfold cat_ok, matching_items, keys_of, mbind, Result_bind. simpl.
  destruct (assoc cats c) as [[| | | | | |kvs]|] eqn:Hc; try done; intros _.
  rewrite bool_decide_eq_true_2 by eauto. simpl.
  apply (matching_keys_ok query cats c kvs _ Hc).
  intros key Hin. apply list_elem_of_fmap in Hin as ([k v] & -> & Hin).
  simpl. clear Hc. induction kvs as [|[k0 v0] rest IH];
    [by apply elem_of_nil in Hin|].
  simpl. destruct (String.eqb k0 k) eqn:E; [by eexists|].
  apply elem_of_cons in Hin as [[= -> ->]|Hin]; [|by apply IH].
  by rewrite String.eqb_refl in E.
Qed.

Lemma filter_categories_ok query cats l :
  (forall cn, cn ∈ l -> cat_ok cats cn.1) ->
  filter_categories py_title py_lower py_str query (JObj cats) l
  = Ok (omap (fun cn =>
          let found := filter (fun key => key_matches' query (JObj cats) cn.1 key)
                              (keys_of (JObj cats) cn.1) in
          if negb (bool_decide (found = []))
             || substring_of query (py_lower cn.2)
          then Some (category_item cn, map (setting_item' cn.1) found)
          else None) l).
Proof.
  induction l as [|[c name] rest IH]; intros Hok; [done|].
  cbn [filter_categories]. unfold mbind, Result_bind.
  rewrite (matching_items_ok query cats c) by (apply (Hok (c, name)); by left).
  rewrite IH by (intros cn Hin; apply Hok; by right).
  cbn [omap list_omap fst snd]. by case_match.
Qed.

(** X18: after [load_settings] on a well-formed document,
    [populate_tree] does not raise and shows the six categories, in
    their fixed order and under their display names, whatever other
    categories the document holds; every default setting has its item
    under its category, and so has every setting the document holds
    under one of the six. *)
Theorem loaded_settings_all_appear_in_the_tree (loaded : JVal) :
  well_formed loaded = true ->
  let effective := (load_settings (Some (Ok loaded))).1 in
  exists tree,
    populate_tree' effective = Ok tree
    /\ tree.*1 = map category_item categories
    /\ (forall c values key d,
          (c, values) ∈ default_settings -> (key, d) ∈ values ->
          exists parent kids,
            (parent, kids) ∈ tree /\ item_values parent = [c]
            /\ setting_item' c key ∈ kids)
    /\ (forall c name key,
          (c, name) ∈ categories -> is_Some (lookup2 loaded c key) ->
          exists kids,
            (category_item (c, name), kids) ∈ tree
            /\ setting_item' c key ∈ kids).
Proof.
  intros Hwf. destruct loaded as [| | | | | |cats]; try done.
  destruct (merge_defaults_spec default_settings cats (well_formed_cat_ok cats Hwf))
    as (cats' & Hm & Hlook & _).
  cbv zeta. rewrite (load_settings_ok _ _ Hm). cbn [fst].
  pose proof (effective_has_defaults _ _ Hlook) as Hdef.
  assert (Hok : forall cn, cn ∈ categories -> cat_ok cats' cn.1).
  { intros [c name] Hin. destruct (category_is_default c name Hin) as [values Hv].
    destruct (Hdef c values Hv) as (kvs & Hc & _).
    unfold cat_ok. simpl. by rewrite Hc. }
  assert (Hshown : forall c name key,
            (c, name) ∈ categories -> is_Some (lookup2 (JObj cats') c key) ->
            (category_item (c, name),
             map (setting_item' c) (keys_of (JObj cats') c))
              ∈ map (fun cn => (category_item cn,
                       map (setting_item' cn.1) (keys_of (JObj cats') cn.1)))
                    categories
            /\ setting_item' c key
                 ∈ map (setting_item' c) (keys_of (JObj cats') c)).
  { intros c name key Hin Hsome. split.
    - apply (list_elem_of_fmap_2
               (fun cn => (category_item cn,
                  map (setting_item' cn.1) (keys_of (JObj cats') cn.1)))
               categories (c, name) Hin).
    - apply list_elem_of_fmap_2.
      destruct Hsome as [v Hv]. pose proof Hv as Hv'.
      apply lookup2_Some_inv in Hv' as (kvs & Hc & _).
      apply (keys_of_elem cats' c kvs key Hc). eauto. }
  eexists. split; [apply populate_categories_ok, Hok|]. split_and!.
  - rewrite <- list_fmap_compose. done.
  - intros c values key d Hc Hk.
    assert (Hcat : exists name, (c, name) ∈ categories).
    { clear -Hc. unfold default_settings in Hc.
      repeat (apply elem_of_cons in Hc as [[= -> _]|Hc]);
        try (by apply elem_of_nil in Hc);
        eexists; unfold categories;
        repeat first [by constructor 1 | constructor 2]. }
    destruct Hcat as [name Hname].
    destruct (Hshown c name key Hname) as [Hparent Hkid].
    { rewrite Hlook, (first_default_listed _ _ _ _ Hc Hk).
      destruct (lookup2 (JObj cats) c key); simpl; eauto. }
    eexists _, _. split; [exact Hparent|]. split; [done|exact Hkid].
  - intros c name key Hin [v Hv].
    destruct (Hshown c name key Hin) as [Hparent Hkid].
    { rewrite Hlook, Hv. simpl. eauto. }
    eexists. split; [exact Hparent|exact Hkid].
Qed.

(** X19: on a well-formed document (the entries for the six
    categories, where present, are dicts), [filter_tree] with a search
    text that is not empty after lowering does not raise.  It shows a category when one
    of its settings matches or its display name contains the query; the
    children shown are exactly the settings of the category whose key or
    whose value, written with [str] and lowered, contains the query. *)
Theorem filter_tree_shows_exactly_the_matches search_text cats :
  well_formed (JObj cats) = true ->
  py_lower search_text <> "" ->
  let query := py_lower search_text in
  exists shown,
    filter_tree' search_text (JObj cats) = Ok shown
    /\ (forall parent kids, (parent, kids) ∈ shown ->
          exists c name,
            (c, name) ∈ categories /\ parent = category_item (c, name)
            /\ (kids <> [] \/ substring_of query (py_lower name) = true)
            /\ forall child, child ∈ kids ->
                 exists key, child = setting_item' c key
                   /\ is_Some (lookup2 (JObj cats) c key)
                   /\ key_matches' query (JObj cats) c key = true)
    /\ (forall c name key,
          (c, name) ∈ categories ->
          is_Some (lookup2 (JObj cats) c key) ->
          key_matches' query (JObj cats) c key = true ->
          exists kids,
            (category_item (c, name), kids) ∈ shown
            /\ setting_item' c key ∈ kids)
    /\ (forall c name,
          (c, name) ∈ categories ->
          substring_of query (py_lower name) = true ->
          exists kids, (category_item (c, name), kids) ∈ shown).
Proof.
  intros Hwf Hq query.
  assert (Hok : forall cn, cn ∈ categories -> cat_ok cats cn.1).
  { intros [c name] Hin. destruct (category_is_default c name Hin) as [values Hv].
    apply (well_formed_cat_ok cats Hwf c values Hv). }
  unfold filter_tree. fold query.
  rewrite bool_decide_eq_false_2 by done.
  rewrite (filter_categories_ok query cats categories Hok).
  eexists. split; [done|]. split_and!.
  - intros parent kids Hin.
    apply list_elem_of_omap in Hin as ([c name] & Hcat & Hsome).
    cbn [fst snd] in Hsome.
    destruct (negb _ || _) eqn:Hcond in Hsome; [|done].
    injection Hsome as <- <-. exists c, name. split_and!; [done..| |].
    + apply orb_true_iff in Hcond as [Hne|Hname]; [left|by right].
      apply negb_true_iff, bool_decide_eq_false in Hne.
      intros Hnil. apply Hne. by apply fmap_nil_inv in Hnil.
    + intros child Hchild.
      apply list_elem_of_fmap in Hchild as (key & -> & Hkey).
      apply list_elem_of_filter in Hkey as [Hm Hkey].
      exists key. split; [done|]. split; [|by apply Is_true_true].
      assert (exists kvs, assoc cats c = Some (JObj kvs)) as [kvs Hc].
      { unfold keys_of in Hkey. simpl in Hkey.
        destruct (assoc cats c) as [[| | | | | |kvs]|];
          try (by apply elem_of_nil in Hkey). by eexists. }
      by apply (keys_of_elem cats c kvs key Hc).
  - intros c name key Hcat Hsome Hm.
    assert (Hkey : key ∈ filter (fun key => key_matches' query (JObj cats) c key)
                           (keys_of (JObj cats) c)).
    { apply list_elem_of_filter. split; [by apply Is_true_true|].
      destruct Hsome as [v Hv]. pose proof Hv as Hv'.
      apply lookup2_Some_inv in Hv' as (kvs & Hc & _).
      apply (keys_of_elem cats c kvs key Hc). eauto. }
    eexists. split.
    + apply list_elem_of_omap. exists (c, name). split; [done|].
      cbn [fst snd]. rewrite bool_decide_eq_false_2; [done|].
      intros Hnil. rewrite Hnil in Hkey. by apply elem_of_nil in Hkey.
    + by apply list_elem_of_fmap_2.
  - intros c name Hcat Hname. eexists.
    apply list_elem_of_omap. exists (c, name). split; [done|].
    cbn [fst snd]. by rewrite Hname, orb_true_r.
Qed.

(** X20: [import_settings] replaces the settings only after a file was
    chosen, parsed to a dict and confirmed, and then by the imported
    dict as it is: no default is merged in, and the dict stays in place
    when [populate_tree] raises on it and "Import Error" is shown.  It
    never sets [settings_modified], and it shows a box whenever a file
    was chosen. *)
Theorem import_replaces_settings_only_when_confirmed
    (filename : string) (parsed : Result JVal) (confirm : bool) (w : Window) :
  let r := import_settings' filename parsed confirm w in
  settings_modified r.1 = settings_modified w
  /\ (settings r.1 <> settings w ->
      filename <> "" /\ confirm = true
      /\ exists cats, parsed = Ok (JObj cats))
  /\ (filename <> "" -> confirm = true ->
      forall cats, parsed = Ok (JObj cats) ->
        settings r.1 = JObj cats
        /\ (forall e, populate_tree' (JObj cats) = Raise e ->
              r.2 = [AskYesNo "⚠️ Confirm Import" true;
                     ShowError "Import Error"]))
  /\ (r.2 = [] <-> filename = "").
Proof.
  cbv zeta. unfold import_settings.
  case_bool_decide as Hf; [by split_and!|].
  destruct parsed as [imported|e].
  2: { destruct (caught_by _ e); by split_and!. }
  destruct imported as [| | | | | |cats]; try (by split_and!).
  destruct confirm; [|by split_and!].
  destruct (populate_tree py_title (JObj cats)) as [tree|e] eqn:Hp;
    simpl; split_and!; try done; try (by eauto).
  - intros _ _ cats0 [= <-]. split; [done|]. by rewrite Hp.
  - intros _ _ cats0 [= <-]. split; [done|]. intros e0 _.
    apply populate_categories_raises in Hp. by rewrite Hp.
Qed.

End TreeFacts.

End SettingsWindowFacts.

(** ** The facts above on the concrete runtime *)

Lemma scalars_are_leaves_witness :
  exists forest,
    Sample.enumerate_object 6 (VObj 6) "d" 0 6 = Some forest
    /\ forall n, n ∈ forest_nodes forest ->
         is_simple_or_none (underlying n) = true -> children n = [].
Proof.
  eexists. split; [reflexivity|].
  apply (scalars_are_leaves Sample.heap Sample.py_str Sample.py_repr
           Sample.py_dir Sample.py_getattr 6 (VObj 6) "d" 0 6).
  reflexivity.
Defined.

Lemma paths_follow_access_steps_witness :
  exists forest,
    Sample.enumerate_object 6 (VObj 6) "d" 0 6 = Some forest
    /\ (forall c, c ∈ forest ->
         exists step,
           access_step Sample.heap Sample.py_repr Sample.py_dir
             Sample.py_getattr (VObj 6) (underlying c) step
           /\ path c = "d" +:+ step)
    /\ (forall n c, n ∈ forest_nodes forest -> c ∈ children n ->
         exists step,
           access_step Sample.heap Sample.py_repr Sample.py_dir
             Sample.py_getattr (underlying n) (underlying c) step
           /\ path c = path n +:+ step).
Proof.
  eexists. split; [reflexivity|].
  apply (paths_follow_access_steps Sample.heap Sample.py_str Sample.py_repr
           Sample.py_dir Sample.py_getattr 6 (VObj 6) "d" 0 6).
  reflexivity.
Defined.

Lemma sequence_has_one_node_per_element_witness :
  exists forest,
    Sample.enumerate_object 6 (VObj 5) "l" 0 6 = Some forest
    /\ underlying <$> forest = [VInt 2; VInt 3]
    /\ path <$> forest = ["l[0]"; "l[1]"].
Proof.
  eexists. split; [reflexivity|].
  apply (sequence_has_one_node_per_element Sample.heap Sample.py_str
           Sample.py_repr Sample.py_dir Sample.py_getattr 6 (VObj 5) "l" 0 6).
  - lia.
  - reflexivity.
  - reflexivity.
Defined.

Lemma dict_stops_at_first_failing_key_witness :
  exists forest,
    Sample.enumerate_object 6 (VObj 6) "d" 0 6 = Some forest
    /\ underlying <$> forest = [VInt 1; VObj 5].
Proof.
  eexists. split; [reflexivity|].
  apply (dict_stops_at_first_failing_key Sample.heap Sample.py_str
           Sample.py_repr Sample.py_dir Sample.py_getattr 6 (VObj 6) "d" 0 6).
  - lia.
  - reflexivity.
  - reflexivity.
Defined.

Lemma attributes_skip_private_and_failing_witness :
  exists forest,
    Sample.enumerate_object 6 (VObj 4) "b" 1 3 = Some forest
    /\ underlying <$> forest = [VObj 4].
Proof.
  eexists. split; [reflexivity|].
  apply (attributes_skip_private_and_failing Sample.heap Sample.py_str
           Sample.py_repr Sample.py_dir Sample.py_getattr 6 (VObj 4) "b" 1 3).
  - lia.
  - reflexivity.
  - reflexivity.
  - reflexivity.
Defined.


Lemma members_are_partitioned_witness :
  let ms := populate_members Sample.heap Sample.py_repr Sample.py_dir
              Sample.py_getattr Demo.py_signature (VObj 2) in
  member_text <$> props ms = []
  /\ length (methods ms) = 1
  /\ length (special ms) = 1
  /\ length (props ms) + length (methods ms) + length (special ms) = 2.
Proof.
  apply (members_are_partitioned Sample.heap Sample.py_repr Sample.py_dir
           Sample.py_getattr Demo.py_signature (VObj 2) ["__name__"; "run"]).
  reflexivity.
Defined.

(** A tree of three items: [a] over [b], and [c] beside them. *)
Lemma filter_opens_matches_and_their_ancestors_witness :
  let b := mkNode "● Run: function" "function" "self.a.run" VNone [] in
  let a := mkNode "● a: Greeter" "Greeter" "self.a" VNone [b] in
  let c := mkNode "● c: int = 1" "int" "self.c" (VInt 1) [] in
  match filter_object_tree Demo.py_lower "RUN" [a; c] with
  | Rebuilt => Demo.py_lower "RUN" = ""
  | Opened items =>
      Demo.py_lower "RUN" <> ""
      /\ forall m, m ∈ items
           <-> m ∈ forest_nodes [a; c]
               /\ matches_below Demo.py_lower (Demo.py_lower "RUN") m = true
  end.
Proof.
  intros b a c.
  apply (filter_opens_matches_and_their_ancestors Demo.py_lower "RUN" [a; c]).
Defined.


Lemma load_touches_only_the_named_entry_witness :
  let u := Sample.opener "o.pkl" "o" in
  let st := store "kept" (VInt 1)
              (Sample.idle (Settings.JObj [])
                 (Sample.fs_with "o.pkl" Sample.pickled_five)) in
  loaded_objects (load_object_python Sample.pickle_loads u st) !! "kept"
  = Some (VInt 1)
  /\ loaded_objects
       (load_object_binary Sample.pickle_loads Sample.json_loads
          Sample.utf8_decode u st) !! "kept"
     = Some (VInt 1).
Proof.
  intros u st.
  destruct (load_touches_only_the_named_entry Sample.pickle_loads
              Sample.json_loads Sample.utf8_decode u st) as [Hother _].
  destruct (Hother "kept") as [Hpy Hbin]; [discriminate|].
  split; [by rewrite Hpy|by rewrite Hbin].
Defined.

Lemma loads_and_saves_leave_selection_and_settings_witness :
  let u := Sample.opener "o.pkl" "o" in
  let st := Sample.idle (Settings.JObj [])
              (Sample.fs_with "o.pkl" Sample.pickled_five) in
  loaded_objects
    (save_object_python Sample.heap Sample.py_bool Sample.pickle_dumps u st)
  = loaded_objects st
  /\ settings
       (load_object_binary Sample.pickle_loads Sample.json_loads
          Sample.utf8_decode u st)
     = settings st.
Proof.
  intros u st.
  destruct (loads_and_saves_leave_selection_and_settings Sample.heap
              Sample.py_bool Sample.py_str
              Sample.pickle_dumps Sample.pickle_loads Sample.json_dumps
              Sample.json_loads Sample.utf8_encode Sample.utf8_decode u st)
    as ((Hstore & _) & Hop).
  split; [exact Hstore|].
  apply (Hop (load_object_binary Sample.pickle_loads Sample.json_loads
                Sample.utf8_decode u)).
  right. left.
Defined.


(** The bytes [b'\x80\x04K\x05.'], saved as they are, are loaded as the
    int [5]. *)
Lemma binary_save_then_load_goes_through_the_chain_witness :
  let u := Sample.opener "o.bin" "o" in
  let st := Sample.initial (VBytes Sample.pickled_five) Sample.empty_fs in
  let loaded :=
    load_binary_from Sample.pickle_loads Sample.json_loads Sample.utf8_decode
      u "o.bin"
      (save_binary_to Sample.heap Sample.py_str Sample.pickle_dumps
         Sample.json_dumps Sample.utf8_encode "o.bin" st) in
  loaded_objects loaded !! "o" = Some (VInt 5).
Proof.
  intros u st.
  destruct (binary_save_then_load_goes_through_the_chain Sample.heap
              Sample.py_str
              Sample.pickle_dumps Sample.pickle_loads Sample.json_dumps
              Sample.json_loads Sample.utf8_encode Sample.utf8_decode
              u "o.bin" "o" st Sample.pickled_five "raw bytes")
    as [Hreturns _].
  - reflexivity.
  - apply not_elem_of_empty.
  - apply not_elem_of_empty.
  - reflexivity.
  - apply lookup_empty.
  - apply (Hreturns (mkSniff (VInt 5) "Python pickle" [])). reflexivity.
Defined.

Module SettingsWindowExamples.
Import Settings SettingsWindow SettingsWindowFacts.

Lemma update_setting_changes_one_existing_value_witness :
  exists w',
    update_setting "browser" "max_depth" (JInt 3) (mkWindow Demo.document false)
    = Ok w'.
Proof.
  destruct (update_setting_changes_one_existing_value "browser" "max_depth"
              (JInt 3) (mkWindow Demo.document false)) as [Hruns _].
  eapply Hruns; [reflexivity|exact I].
Defined.

Lemma load_settings_is_idempotent_witness :
  let effective := (load_settings (Some (Ok Demo.document))).1 in
  load_settings (Some (Ok effective)) = (effective, false).
Proof.
  apply (load_settings_is_idempotent Demo.document). reflexivity.
Defined.

Lemma load_settings_drops_a_malformed_document_witness :
  load_settings (Some (Ok Demo.broken_document)) = (default_document, true).
Proof.
  apply (load_settings_drops_a_malformed_document Demo.broken_document).
  right. eexists "browser", _, (JInt 5). split; [by left|]. by split.
Defined.

Lemma browser_ignores_the_editor_category_witness :
  let saved := (load_settings (Some (Ok Demo.document))).1 in
  BrowserSettings.editor_command
    (BrowserSettings.load_settings (Some (Ok saved)))
  = Ok (JStr "notepad {filename}").
Proof.
  destruct (browser_ignores_the_editor_category Demo.document) as [_ Hsaved].
  destruct Hsaved as [Hcommand _]; [reflexivity..|]. exact Hcommand.
Defined.

Lemma loaded_settings_all_appear_in_the_tree_witness :
  let effective := (load_settings (Some (Ok Demo.document))).1 in
  exists tree,
    populate_tree Demo.py_title effective = Ok tree
    /\ tree.*1 = map category_item categories.
Proof.
  destruct (loaded_settings_all_appear_in_the_tree Demo.py_title Demo.document)
    as (tree & Hrun & Htop & _); [reflexivity|].
  exists tree. by split.
Defined.

Lemma filter_tree_shows_exactly_the_matches_witness :
  exists shown,
    filter_tree Demo.py_title Demo.py_lower Demo.py_str "DEPTH" Demo.document
    = Ok shown
    /\ exists kids,
         (category_item ("browser", "🧠 Browser Settings"), kids) ∈ shown
         /\ setting_item Demo.py_title "browser" "max_depth" ∈ kids.
Proof.
  destruct (filter_tree_shows_exactly_the_matches Demo.py_title Demo.py_lower
              Demo.py_str "DEPTH"
              [ ("browser", JObj [("max_depth", JInt 9);
                                  ("show_private", JBool true)]);
                ("editor", JObj [("tab_size", JInt 8)]);
                ("plugins", JObj [("enabled", JBool true)]) ])
    as (shown & Hrun & _ & Hall & _); [reflexivity|discriminate|].
  exists shown. split; [exact Hrun|].
  apply (Hall "browser" "🧠 Browser Settings" "max_depth");
    [by left|by eexists|reflexivity].
Defined.

Lemma import_replaces_settings_only_when_confirmed_witness :
  let r := import_settings Demo.py_title "broken.json"
             (Ok Demo.broken_document) true (mkWindow Demo.document false) in
  settings r.1 = Demo.broken_document
  /\ settings_modified r.1 = false
  /\ r.2 = [AskYesNo "⚠️ Confirm Import" true; ShowError "Import Error"].
Proof.
  intros r.
  destruct (import_replaces_settings_only_when_confirmed Demo.py_title
              "broken.json" (Ok Demo.broken_document) true
              (mkWindow Demo.document false))
    as (Hmodified & _ & Hreplaced & _).
  destruct (Hreplaced ltac:(discriminate) eq_refl
              [("browser", JInt 5); ("editor", JObj [("tab_size", JInt 8)])]
              eq_refl) as [Hsettings Hbox].
  split; [exact Hsettings|]. split; [exact Hmodified|].
  by eapply Hbox.
Defined.

End SettingsWindowExamples.
